(** * agentic-duo backend: StateManager, SlideTools, ToolExecutor, AudioProcessor

    A shallow embedding of the Python backend of the voice-driven
    presentation agent, and the properties of it that the specification
    states.

    Conventions of the embedding:
    - Python [int] is [Z] (unbounded); [str] is [string], whose length
      stands for [len]; [Optional[T]] is [option T].
    - Every method is a function from the object's state to an outcome and
      the state it leaves behind.  A raised exception is the outcome
      [inl e]; it does not roll the state back, so "fails without mutating"
      is a property to prove, not one built into the type.
    - [datetime.now()] is read from an explicit argument [now].
    - [async with self._lock] makes every StateManager method one atomic
      step; a method is therefore one state transformer. *)

From stdpp Require Import gmap strings list pretty.
From Stdlib Require Import ZArith Lia.

Set Warnings "-register-all".
Open Scope Z_scope.

(** ** Python values and exceptions *)

Definition timestamp := Z.

(** Values of type [Any] that the backend stores or passes through. *)
Inductive pyval : Type :=
| VNone
| VBool (b : bool)
| VInt (z : Z)
| VStr (s : string)
| VDatetime (t : timestamp)
| VList (l : list pyval)
| VDict (kvs : list (string * pyval)).

(** The exception classes that occur, with their place in Python's
    hierarchy: [CancelledError], [KeyboardInterrupt] and [SystemExit]
    derive from [BaseException] only, the others from [Exception]. *)
Inductive exc_class : Type :=
| ValueError | TypeError | KeyError | RuntimeError | OSError
| CancelledError | KeyboardInterrupt | SystemExit.

Definition is_Exception (c : exc_class) : bool :=
  match c with
  | CancelledError | KeyboardInterrupt | SystemExit => false
  | _ => true
  end.

(** An exception instance; [exc_msg] is what [str(e)] returns. *)
Record pyexc : Type := PyExc { exc_cls : exc_class; exc_msg : string }.

Definition str_exc (e : pyexc) : string := exc_msg e.

(** ** The state-and-exception monad *)

Definition M (S A : Type) : Type := S → (pyexc + A) * S.

Global Instance M_ret S : MRet (M S) := λ A a s, (inr a, s).

Global Instance M_bind S : MBind (M S) := λ A B f m s,
  match m s with
  | (inr a, s') => f a s'
  | (inl e, s') => (inl e, s')
  end.

Definition raise {S A} (e : pyexc) : M S A := λ s, (inl e, s).

(** [try: body / except Exception as e: handler e].  An exception outside
    the [Exception] hierarchy is not caught. *)
Definition try_except_Exception {S A} (body : M S A) (handler : pyexc → M S A)
  : M S A := λ s,
  match body s with
  | (inr a, s') => (inr a, s')
  | (inl e, s') =>
      if is_Exception (exc_cls e) then handler e s' else (inl e, s')
  end.

(** ** Slices *)

(** [l[start:]] with Python's normalisation of a negative start. *)
Definition py_slice_from {A} (start : Z) (l : list A) : list A :=
  let len := Z.of_nat (length l) in
  let i := if start <? 0 then Z.max (start + len) 0 else Z.min start len in
  drop (Z.to_nat i) l.

Definition newline : string := String (Ascii.ascii_of_nat 10) EmptyString.

(** ** state_manager.py *)

Module StateManager.

Record TranscriptEntry : Type := mkEntry {
  te_timestamp : timestamp;
  te_text : string;
  te_speaker : string;
  te_slide_index : Z;
  te_metadata : gmap string pyval
}.

Record InjectionRecord : Type := mkInjection {
  inj_timestamp : timestamp;
  inj_slide_index : Z;
  inj_placeholder : string;
  inj_content_type : string;
  inj_content : pyval
}.

Record t : Type := mk {
  total_slides : Z;
  current_slide : Z;
  transcript : list TranscriptEntry;
  injections : list InjectionRecord;
  session_metadata : gmap string pyval
}.

Definition with_current_slide (s : t) (i : Z) : t :=
  mk (total_slides s) i (transcript s) (injections s) (session_metadata s).

Definition with_total_slides (s : t) (n : Z) : t :=
  mk n (current_slide s) (transcript s) (injections s) (session_metadata s).

Definition with_transcript (s : t) (l : list TranscriptEntry) : t :=
  mk (total_slides s) (current_slide s) l (injections s) (session_metadata s).

Definition with_injections (s : t) (l : list InjectionRecord) : t :=
  mk (total_slides s) (current_slide s) (transcript s) l (session_metadata s).

Definition with_session_metadata (s : t) (m : gmap string pyval) : t :=
  mk (total_slides s) (current_slide s) (transcript s) (injections s) m.

Definition fresh_metadata (now : timestamp) : gmap string pyval :=
  <["session_id" := VNone]> (<["started_at" := VDatetime now]> ∅).

(** [StateManager.__init__] *)
Definition init (now : timestamp) (total : Z) : t :=
  mk total 0 [] [] (fresh_metadata now).

(** The range test shared by [set_current_slide] and [navigate]:
    [self.total_slides > 0 and (i < 0 or i >= self.total_slides)]. *)
Definition out_of_range (s : t) (i : Z) : bool :=
  (0 <? total_slides s) && ((i <? 0) || (total_slides s <=? i)).

Definition set_current_slide (index : Z) : M t unit := λ s,
  if out_of_range s index
  then (inl (PyExc ValueError
               ("Slide index " +:+ pretty index +:+ " out of range (0-"
                +:+ pretty (total_slides s - 1) +:+ ")")), s)
  else (inr (), with_current_slide s index).

Definition get_current_slide : M t Z := λ s, (inr (current_slide s), s).

Definition navigate (direction : string) (index : option Z) : M t Z := λ s,
  let target : pyexc + Z :=
    if String.eqb direction "next" then
      inr (Z.min (current_slide s + 1)
                 (if 0 <? total_slides s then total_slides s - 1 else 0))
    else if String.eqb direction "prev" then
      inr (Z.max (current_slide s - 1) 0)
    else if String.eqb direction "jump" then
      match index with
      | None => inl (PyExc ValueError "Index required for 'jump' navigation")
      | Some i => inr i
      end
    else inl (PyExc ValueError ("Invalid direction: " +:+ direction)) in
  match target with
  | inl e => (inl e, s)
  | inr new_index =>
      if out_of_range s new_index
      then (inl (PyExc ValueError
                   ("Cannot navigate to slide " +:+ pretty new_index
                    +:+ " (range: 0-" +:+ pretty (total_slides s - 1)
                    +:+ ")")), s)
      else (inr new_index, with_current_slide s new_index)
  end.

Definition add_transcript_entry (now : timestamp) (text speaker : string)
    (metadata : option (gmap string pyval)) : M t unit := λ s,
  let entry := mkEntry now text speaker (current_slide s) (default ∅ metadata) in
  (inr (), with_transcript s (transcript s ++ [entry])).

(** [self.transcript[-n:] if self.transcript else []] *)
Definition get_recent_transcript (n : Z) : M t (list TranscriptEntry) := λ s,
  (inr (match transcript s with
        | [] => []
        | _ :: _ => py_slice_from (- n) (transcript s)
        end), s).

Definition get_transcript_for_slide (slide_index : Z)
  : M t (list TranscriptEntry) := λ s,
  (inr (filter (λ e, te_slide_index e = slide_index) (transcript s)), s).

Definition track_injection (now : timestamp) (placeholder content_type : string)
    (content : pyval) (slide_index : option Z) : M t unit := λ s,
  let injection :=
    mkInjection now (default (current_slide s) slide_index)
                placeholder content_type content in
  (inr (), with_injections s (injections s ++ [injection])).

Definition get_injections_for_slide (slide_index : Z)
  : M t (list InjectionRecord) := λ s,
  (inr (filter (λ r, inj_slide_index r = slide_index) (injections s)), s).

Definition get_all_injections : M t (list InjectionRecord) := λ s,
  (inr (injections s), s).

Definition set_total_slides (total : Z) : M t unit := λ s,
  (inr (), with_total_slides s total).

Definition get_total_slides : M t Z := λ s, (inr (total_slides s), s).

Record Context : Type := mkContext {
  ctx_current_slide : Z;
  ctx_total_slides : Z;
  ctx_transcript_entries : nat;
  ctx_injections_count : nat;
  ctx_recent_transcript : list TranscriptEntry;
  ctx_session_metadata : gmap string pyval
}.

Definition get_context : M t Context := λ s,
  (inr (mkContext (current_slide s) (total_slides s)
                  (length (transcript s)) (length (injections s))
                  (match transcript s with
                   | [] => []
                   | _ :: _ => py_slice_from (-5) (transcript s)
                   end)
                  (session_metadata s)), s).

Definition set_metadata (key : string) (value : pyval) : M t unit := λ s,
  (inr (), with_session_metadata s (<[key := value]> (session_metadata s))).

Definition get_metadata (key : string) (dflt : pyval) : M t pyval := λ s,
  (inr (default dflt (session_metadata s !! key)), s).

Definition clear_transcript : M t unit := λ s, (inr (), with_transcript s []).

Definition clear_injections : M t unit := λ s, (inr (), with_injections s []).

Definition reset (now : timestamp) : M t unit := λ s,
  (inr (), mk (total_slides s) 0 [] [] (fresh_metadata now)).

(** *** Sequences of public operations *)

(** One call of a public method, with its arguments. *)
Inductive op : Type :=
| SetCurrentSlide (index : Z)
| GetCurrentSlide
| Navigate (direction : string) (index : option Z)
| AddTranscriptEntry (text speaker : string)
                     (metadata : option (gmap string pyval))
| GetRecentTranscript (n : Z)
| GetTranscriptForSlide (slide_index : Z)
| TrackInjection (placeholder content_type : string) (content : pyval)
                 (slide_index : option Z)
| GetInjectionsForSlide (slide_index : Z)
| GetAllInjections
| SetTotalSlides (total : Z)
| GetTotalSlides
| GetContext
| SetMetadata (key : string) (value : pyval)
| GetMetadata (key : string) (dflt : pyval)
| ClearTranscript
| ClearInjections
| ResetAll.

Definition ignore {A} (m : M t A) : M t unit := λ s,
  match m s with
  | (inr _, s') => (inr (), s')
  | (inl e, s') => (inl e, s')
  end.

(** The call made at clock reading [now]; the returned value is dropped,
    the outcome (returned or raised) and the state are kept. *)
Definition call (now : timestamp) (o : op) : M t unit :=
  match o with
  | SetCurrentSlide i => set_current_slide i
  | GetCurrentSlide => ignore get_current_slide
  | Navigate d i => ignore (navigate d i)
  | AddTranscriptEntry x sp md => add_transcript_entry now x sp md
  | GetRecentTranscript n => ignore (get_recent_transcript n)
  | GetTranscriptForSlide i => ignore (get_transcript_for_slide i)
  | TrackInjection p ct c i => track_injection now p ct c i
  | GetInjectionsForSlide i => ignore (get_injections_for_slide i)
  | GetAllInjections => ignore get_all_injections
  | SetTotalSlides n => set_total_slides n
  | GetTotalSlides => ignore get_total_slides
  | GetContext => ignore get_context
  | SetMetadata k v => set_metadata k v
  | GetMetadata k d => ignore (get_metadata k d)
  | ClearTranscript => clear_transcript
  | ClearInjections => clear_injections
  | ResetAll => reset now
  end.

Definition succeeds (now : timestamp) (o : op) (s : t) : bool :=
  match (call now o s).1 with inr _ => true | inl _ => false end.

(** The state after a sequence of calls.  A call that raises is caught by
    its caller and the object lives on in the state the call left. *)
Fixpoint run (calls : list (timestamp * op)) (s : t) : t :=
  match calls with
  | [] => s
  | (now, o) :: rest => run rest (call now o s).2
  end.

(** Every call of the sequence returns normally. *)
Fixpoint all_succeed (calls : list (timestamp * op)) (s : t) : bool :=
  match calls with
  | [] => true
  | (now, o) :: rest =>
      succeeds now o s && all_succeed rest (call now o s).2
  end.

(** The slide bound of the data model. *)
Definition slide_bound (s : t) : Prop :=
  0 < total_slides s → 0 ≤ current_slide s < total_slides s.

End StateManager.

(** ** slide_tools.py *)

(** A Python [dict] with string keys, in insertion order. *)
Definition pydict := list (string * pyval).

Fixpoint dict_get (d : pydict) (k : string) : option pyval :=
  match d with
  | [] => None
  | (k', v) :: rest => if String.eqb k' k then Some v else dict_get rest k
  end.

Module SlideTools.

Import StateManager.

(** [self.state] is the one StateManager the tools act on, so every tool is
    a computation over its state. *)

Definition navigate_slide (direction : string) (index : option Z)
  : M StateManager.t pydict :=
  try_except_Exception
    (new_index ← navigate direction index;
     total ← get_total_slides;
     mret [("action", VStr "navigate"); ("direction", VStr direction);
           ("current_slide", VInt new_index); ("total_slides", VInt total);
           ("success", VBool true)])
    (λ e, mret [("action", VStr "navigate"); ("success", VBool false);
                ("error", VStr (str_exc e))]).

Definition inject_image (now : timestamp) (prompt target_placeholder : string)
  : M StateManager.t pydict :=
  try_except_Exception
    (current ← get_current_slide;
     _ ← track_injection now target_placeholder "image"
           (VDict [("prompt", VStr prompt); ("status", VStr "stub");
                   ("message", VStr "Image generation not yet implemented")])
           (Some current);
     mret [("action", VStr "inject_image");
           ("placeholder", VStr target_placeholder);
           ("prompt", VStr prompt); ("slide_index", VInt current);
           ("success", VBool true); ("stub", VBool true);
           ("message",
            VStr "Image generation stub - will be implemented with Imagen API")])
    (λ e, mret [("action", VStr "inject_image"); ("success", VBool false);
                ("error", VStr (str_exc e))]).

Definition add_content (now : timestamp) (content target_placeholder : string)
  : M StateManager.t pydict :=
  try_except_Exception
    (current ← get_current_slide;
     _ ← track_injection now target_placeholder "text" (VStr content)
           (Some current);
     mret [("action", VStr "inject_content");
           ("placeholder", VStr target_placeholder);
           ("content", VStr content); ("slide_index", VInt current);
           ("success", VBool true)])
    (λ e, mret [("action", VStr "inject_content"); ("success", VBool false);
                ("error", VStr (str_exc e))]).

(** [f"- {text[:100]}..."] *)
Definition bullet (text : string) : string :=
  "- " +:+ String.substring 0 100 text +:+ "...".

(** [len(text) > 10] *)
Definition qualifies (text : string) : bool :=
  (10 <? String.length text)%nat.

(** The loop over [texts[:5]] that appends a bullet for each text longer
    than 10 characters. *)
Definition summary_bullets (texts : list string) : list string :=
  foldl (λ acc text, if qualifies text then acc ++ [bullet text] else acc)
        [] (take 5 texts).

Definition summary_of (recent : list TranscriptEntry) : string :=
  String.concat newline (summary_bullets (te_text <$> recent)).

Definition generate_summary (now : timestamp) : M StateManager.t pydict :=
  try_except_Exception
    (recent ← get_recent_transcript 20;
     match recent with
     | [] =>
         mret [("action", VStr "generate_summary"); ("success", VBool false);
               ("error", VStr "No transcript available to summarize")]
     | _ :: _ =>
         let summary := summary_of recent in
         current ← get_current_slide;
         _ ← track_injection now "AI:SUMMARY" "summary" (VStr summary)
               (Some current);
         mret [("action", VStr "inject_summary"); ("summary", VStr summary);
               ("slide_index", VInt current); ("success", VBool true);
               ("stub", VBool true);
               ("message",
                VStr "Basic summary - will be improved with Gemini API")]
     end)
    (λ e, mret [("action", VStr "generate_summary"); ("success", VBool false);
                ("error", VStr (str_exc e))]).

(** The bullets as the specification words them: one per entry of the
    first 5 qualifying entries, that is, the qualifying entries are
    selected first and five of them are kept. *)
Definition bullets_of_first_5_qualifying (texts : list string) : list string :=
  bullet <$> take 5 (filter (λ x, qualifies x = true) texts).

End SlideTools.

(** ** tool_executor.py *)

Module ToolExecutor.

(** [FunctionResponse(id=..., name=..., response=...)] *)
Record FunctionResponse : Type := mkResponse {
  resp_id : string;
  resp_name : string;
  response : pydict
}.

Section Executor.

(** The state the registered handlers act on. *)
Context {S : Type}.

(** A registered callable: whether [asyncio.iscoroutinefunction] holds of
    it, and what awaiting its call on the unpacked arguments does. *)
Record tool : Type := mkTool {
  is_coroutinefunction : bool;
  invoke : pydict → M S pyval
}.

(** The declaration payload is opaque to the executor. *)
Record t : Type := mk {
  tools : gmap string tool;
  declarations : gmap string pyval;
  verbose : bool
}.

Definition new (verbose : bool) : t := mk ∅ ∅ verbose.

Definition register_tool (self : t) (name : string) (func : tool)
    (declaration : pyval) : pyexc + t :=
  match tools self !! name with
  | Some _ =>
      inl (PyExc ValueError ("Tool '" +:+ name +:+ "' is already registered"))
  | None =>
      if negb (is_coroutinefunction func)
      then inl (PyExc ValueError
                  ("Tool '" +:+ name +:+ "' must be an async function"))
      else inr (mk (<[name := func]> (tools self))
                   (<[name := declaration]> (declarations self))
                   (verbose self))
  end.

(** [execute_tool]; the console output made when [verbose] is set is not
    part of the model. *)
Definition execute_tool (self : t) (function_name function_id : string)
    (args : option pydict) : M S FunctionResponse :=
  let args := default [] args in
  match tools self !! function_name with
  | None =>
      mret (mkResponse function_id function_name
              [("result", VStr "error: unknown function");
               ("error", VStr ("Unknown function: " +:+ function_name))])
  | Some func =>
      try_except_Exception
        (result ← invoke func args;
         mret (mkResponse function_id function_name
                 [("result", VStr "success"); ("data", result)]))
        (λ e, mret (mkResponse function_id function_name
                      [("result", VStr "error");
                       ("error", VStr (str_exc e))]))
  end.

Definition has_tool (self : t) (name : string) : bool :=
  bool_decide (is_Some (tools self !! name)).

End Executor.

Arguments tool : clear implicits.
Arguments t : clear implicits.

End ToolExecutor.

(** ** audio_processor.py *)

Module AudioProcessor.

Definition CHANNELS : Z := 1.
Definition SAMPLE_RATE : Z := 16000.
Definition CHUNK_SIZE : Z := 1600.

Record AudioMsg : Type := mkMsg { msg_data : list Z; msg_mime_type : string }.

(** What the processor touches outside itself: the audio host, the task
    scheduler and the standard error stream. *)
Record Host : Type := mkHost {
  default_input_device : pyexc + Z;   (* get_default_input_device_info *)
  open_result : Z → pyexc + nat;      (* pya.open on a device index *)
  streams_opened : list nat;          (* streams handed out so far *)
  tasks_created : nat;                (* capture loops started so far *)
  stderr : list string
}.

Definition print_stderr (h : Host) (line : string) : Host :=
  mkHost (default_input_device h) (open_result h) (streams_opened h)
         (tasks_created h) (stderr h ++ [line]).

Definition opened (h : Host) (stream : nat) : Host :=
  mkHost (default_input_device h) (open_result h)
         (streams_opened h ++ [stream]) (tasks_created h) (stderr h).

Definition task_created (h : Host) : Host :=
  mkHost (default_input_device h) (open_result h) (streams_opened h)
         (Datatypes.S (tasks_created h)) (stderr h).

Record t : Type := mk {
  audio_queue : list AudioMsg;
  queue_maxsize : Z;
  audio_stream : option nat;
  capture_task : option nat;
  is_running : bool
}.

Definition new (queue_maxsize : Z) : t := mk [] queue_maxsize None None false.

(** The body of the [try] of [start_capture]. *)
Definition open_and_start : M (t * Host) unit := λ '(self, h),
  match default_input_device h with
  | inl e => (inl e, (self, h))
  | inr index =>
      match open_result h index with
      | inl e => (inl e, (self, h))
      | inr stream =>
          let h1 := opened h stream in
          let task := tasks_created h1 in
          (inr (), (mk (audio_queue self) (queue_maxsize self) (Some stream)
                       (Some task) true,
                    task_created h1))
      end
  end.

Definition start_capture : M (t * Host) unit := λ '(self, h),
  if is_running self then
    (inr (), (self, print_stderr h "Warning: Audio capture is already running"))
  else
    try_except_Exception open_and_start
      (λ e '(self', h'),
         (inl e, (self', print_stderr h'
                           ("Error setting up audio input: " +:+ str_exc e))))
      (self, h).

End AudioProcessor.

(** ** Traces used as concrete inputs *)

Module Traces.

Import StateManager.

(** [StateManager(total_slides=10)], [set_current_slide(5)],
    [set_total_slides(3)]. *)
Definition shrink_below_current : list (timestamp * op) :=
  [(1, SetCurrentSlide 5); (2, SetTotalSlides 3)].

(** Three transcript entries appended one after the other. *)
Definition three_entries : list (timestamp * op) :=
  [(1, AddTranscriptEntry "alpha" "user" None);
   (2, AddTranscriptEntry "beta" "user" None);
   (3, AddTranscriptEntry "gamma" "user" None)].

(** Five short entries followed by one longer than 10 characters. *)
Definition five_short_one_long : list (timestamp * op) :=
  [(1, AddTranscriptEntry "ok" "user" None);
   (2, AddTranscriptEntry "yes" "user" None);
   (3, AddTranscriptEntry "right" "user" None);
   (4, AddTranscriptEntry "next" "user" None);
   (5, AddTranscriptEntry "so" "user" None);
   (6, AddTranscriptEntry "Revenue grew by ten percent" "user" None)].

End Traces.

(** ** Handlers and hosts used as concrete inputs *)

Module Handlers.

Import ToolExecutor.

(** An async tool that returns its argument "x". *)
Definition echo : tool unit :=
  mkTool true (λ args, mret (default VNone (dict_get args "x"))).

(** The tool of [test_execute_tool_with_error]: it raises
    [ValueError("Intentional error")]. *)
Definition error_tool : tool unit :=
  mkTool true (λ _, raise (PyExc ValueError "Intentional error")).

(** An async tool whose task is cancelled while it is awaited: the await
    raises [asyncio.CancelledError]. *)
Definition cancelled_tool : tool unit :=
  mkTool true (λ _, raise (PyExc CancelledError "")).

Definition registry : t unit :=
  mk (<["echo" := echo]>
        (<["error_tool" := error_tool]>
           (<["cancelled_tool" := cancelled_tool]> ∅)))
     ∅ false.

End Handlers.

Module Hosts.

Import AudioProcessor.

(** A host with a default input device, on which opening a stream works. *)
Definition working : Host :=
  mkHost (inr 0) (λ _, inr 1%nat) [] 0 [].

(** A processor started once on the working host. *)
Definition started : t * Host := (start_capture (new 5, working)).2.

End Hosts.

(** ** Conditions on traces *)

Module Guards.

Import StateManager.

(** The call cannot put the current slide outside a positive total: it is
    not a [set_total_slides(n)] with [n > 0] at or below the current slide
    (or with a negative current slide). *)
Definition keeps_bound (o : op) (s : t) : Prop :=
  match o with
  | SetTotalSlides n => 0 < n → 0 ≤ current_slide s < n
  | _ => True
  end.

Fixpoint totals_cover_current (calls : list (timestamp * op)) (s : t) : Prop :=
  match calls with
  | [] => True
  | (now, o) :: rest =>
      keeps_bound o s ∧ totals_cover_current rest (call now o s).2
  end.

(** The index the call asks to commit is range-checked (the total is
    positive) or is not negative. *)
Definition index_checked_or_nonneg (o : op) (s : t) : Prop :=
  match o with
  | SetCurrentSlide i => 0 < total_slides s ∨ 0 ≤ i
  | Navigate d (Some i) =>
      if String.eqb d "jump" then 0 < total_slides s ∨ 0 ≤ i else True
  | _ => True
  end.

Fixpoint indices_checked_or_nonneg (calls : list (timestamp * op)) (s : t)
  : Prop :=
  match calls with
  | [] => True
  | (now, o) :: rest =>
      index_checked_or_nonneg o s
      ∧ indices_checked_or_nonneg rest (call now o s).2
  end.

(** The indices that [navigate] computes for "next" and "prev". *)
Definition next_index (s : t) : Z :=
  Z.min (current_slide s + 1)
        (if 0 <? total_slides s then total_slides s - 1 else 0).

Definition prev_index (s : t) : Z := Z.max (current_slide s - 1) 0.

End Guards.

(** ** Shapes of calls *)

Module CallShape.

Import StateManager.

Definition clears_transcript (o : op) : bool :=
  match o with ClearTranscript | ResetAll => true | _ => false end.

Definition clears_injections (o : op) : bool :=
  match o with ClearInjections | ResetAll => true | _ => false end.

Definition is_add_transcript_entry (o : op) : bool :=
  match o with AddTranscriptEntry _ _ _ => true | _ => false end.

Definition is_track_injection (o : op) : bool :=
  match o with TrackInjection _ _ _ _ => true | _ => false end.

Definition is_set_total_slides (o : op) : bool :=
  match o with SetTotalSlides _ => true | _ => false end.

(** The record [r] is the one the [track_injection] call [c] leaves: it
    carries the time, placeholder, content type and content of the call,
    and the slide index of the call when it gives one. *)
Definition records_call (r : InjectionRecord) (c : timestamp * op) : Prop :=
  match c.2 with
  | TrackInjection p ct content idx =>
      inj_timestamp r = c.1 ∧ inj_placeholder r = p
      ∧ inj_content_type r = ct ∧ inj_content r = content
      ∧ (∀ i, idx = Some i → inj_slide_index r = i)
  | _ => False
  end.

(** The number of calls of the trace that satisfy [f]. *)
Definition count_calls (f : op → bool) (calls : list (timestamp * op)) : nat :=
  length (filter (λ c, f c.2 = true) calls).

End CallShape.

(** ** tool_executor.py: registration at startup and batches of calls *)

Module ToolCalls.

Import ToolExecutor.

Section Calls.

Context {S : Type}.

(** A startup sequence of [register_tool] calls; the first one that raises
    ends it. *)
Fixpoint register_all (self : t S) (regs : list (string * tool S * pyval))
  : pyexc + t S :=
  match regs with
  | [] => inr self
  | (name, func, declaration) :: rest =>
      match register_tool self name func declaration with
      | inl e => inl e
      | inr self' => register_all self' rest
      end
  end.

(** The names a startup sequence registers. *)
Definition names (regs : list (string * tool S * pyval)) : list string :=
  (λ r, r.1.1) <$> regs.

(** One entry of [response.tool_call.function_calls]. *)
Record FunctionCall : Type := mkCall {
  fc_name : string;
  fc_id : string;
  fc_args : option pydict
}.

(** [args = {}], replaced by [dict(fc.args)] when [fc.args] is present and
    not empty. *)
Definition call_args (fc : FunctionCall) : pydict :=
  match fc_args fc with
  | Some (kv :: kvs) => kv :: kvs
  | _ => []
  end.

(** The loop of [handle_tool_calls] over the function calls of one tool
    call: each call is executed in turn and its response appended to
    [function_responses]. *)
Fixpoint execute_calls (self : t S) (calls : list FunctionCall)
    (function_responses : list FunctionResponse)
  : M S (list FunctionResponse) :=
  match calls with
  | [] => mret function_responses
  | fc :: rest =>
      func_response ←
        execute_tool self (fc_name fc) (fc_id fc) (Some (call_args fc));
      execute_calls self rest (function_responses ++ [func_response])
  end.

(** No registered handler raises an exception outside the [Exception]
    hierarchy. *)
Definition raises_Exception_only (self : t S) : Prop :=
  ∀ name func args s e s',
    tools self !! name = Some func →
    invoke func args s = (inl e, s') →
    is_Exception (exc_cls e) = true.

End Calls.

Arguments FunctionCall : clear implicits.

End ToolCalls.

(** ** audio_processor.py: stop_capture *)

Module AudioRelease.

Import AudioProcessor.

(** What [stop_capture] touches besides the processor and standard error:
    the capture task it cancels and awaits, the stream it closes and the
    PyAudio instance it terminates.  [close_result] and [terminate_result]
    say whether [audio_stream.close()] and [pya.terminate()] raise. *)
Record Release : Type := mkRelease {
  close_result : nat → option pyexc;
  terminate_result : option pyexc;
  cancelled : list nat;
  closed : list nat;
  terminated : nat
}.

Definition St : Type := t * Host * Release.

Definition stopped (self : t) : t :=
  mk (audio_queue self) (queue_maxsize self) (audio_stream self)
     (capture_task self) false.

(** [self._capture_task.cancel()] and the await of the task, whose
    [CancelledError] is swallowed. *)
Definition cancel_task (task : nat) : M St unit := λ '(self, h, r),
  (inr (), (self, h,
            mkRelease (close_result r) (terminate_result r)
                      (cancelled r ++ [task]) (closed r) (terminated r))).

(** [self.audio_stream.close()] *)
Definition close_stream (stream : nat) : M St unit := λ '(self, h, r),
  let r' := mkRelease (close_result r) (terminate_result r) (cancelled r)
                      (closed r ++ [stream]) (terminated r) in
  match close_result r stream with
  | Some e => (inl e, (self, h, r'))
  | None => (inr (), (self, h, r'))
  end.

(** [self.pya.terminate()] *)
Definition terminate : M St unit := λ '(self, h, r),
  let r' := mkRelease (close_result r) (terminate_result r) (cancelled r)
                      (closed r) (Datatypes.S (terminated r)) in
  match terminate_result r with
  | Some e => (inl e, (self, h, r'))
  | None => (inr (), (self, h, r'))
  end.

Definition log (line : string) : M St unit := λ '(self, h, r),
  (inr (), (self, print_stderr h line, r)).

Definition stop_capture : M St unit := λ '(self, h, r),
  (_ ← match capture_task self with
       | Some task => cancel_task task
       | None => mret ()
       end;
   _ ← match audio_stream self with
       | Some stream =>
           try_except_Exception (close_stream stream)
             (λ e, log ("Error closing audio stream: " +:+ str_exc e))
       | None => mret ()
       end;
   try_except_Exception terminate
     (λ e, log ("Error terminating pyaudio: " +:+ str_exc e)))
    (stopped self, h, r).

(** [close()] and [terminate()] raise, if at all, an instance of
    [Exception]. *)
Definition releases_raise_Exception_only (r : Release) : Prop :=
  (∀ stream e, close_result r stream = Some e → is_Exception (exc_cls e) = true)
  ∧ (∀ e, terminate_result r = Some e → is_Exception (exc_cls e) = true).

End AudioRelease.

(** ** Further concrete inputs *)

Module Fixtures.

Import ToolExecutor ToolCalls AudioProcessor AudioRelease.

(** The registrations of a startup with two tools. *)
Definition two_tools : list (string * tool unit * pyval) :=
  [("echo", Handlers.echo, VStr "echo declaration");
   ("error_tool", Handlers.error_tool, VStr "error_tool declaration")].

Definition two_tool_registry : ToolExecutor.t unit :=
  ToolExecutor.mk
    (<["error_tool" := Handlers.error_tool]> (<["echo" := Handlers.echo]> ∅))
    (<["error_tool" := VStr "error_tool declaration"]>
       (<["echo" := VStr "echo declaration"]> ∅))
    false.

(** A batch of three calls: a known tool, an unknown one, a failing one. *)
Definition three_calls : list (FunctionCall) :=
  [mkCall "echo" "c1" (Some [("x", VInt 4)]);
   mkCall "missing" "c2" None;
   mkCall "error_tool" "c3" (Some [])].

(** A host without a default input device. *)
Definition no_device : Host :=
  mkHost (inl (PyExc OSError "No Default Input Device Available"))
         (λ _, inr 1%nat) [] 0 [].

(** Closing the stream fails, terminating works. *)
Definition close_fails : Release :=
  mkRelease (λ _, Some (PyExc OSError "Stream not open")) None [] [] 0.

End Fixtures.

(** ** slide_tools.py: sequences of content commands *)

Module ContentCommands.

Import StateManager SlideTools.

(** A call of one of the two commands that add content to the deck. *)
Inductive content_command : Type :=
| InjectImage (prompt target_placeholder : string)
| AddContent (content target_placeholder : string).

Definition run_command (now : timestamp) (c : content_command)
  : M StateManager.t pydict :=
  match c with
  | InjectImage prompt ph => inject_image now prompt ph
  | AddContent content ph => add_content now content ph
  end.

(** The commands awaited one after the other, as in
    [test_multiple_injections_same_slide]; the results are collected. *)
Fixpoint run_commands (cmds : list (timestamp * content_command))
  : M StateManager.t (list pydict) :=
  match cmds with
  | [] => mret []
  | (now, c) :: rest =>
      r ← run_command now c;
      rs ← run_commands rest;
      mret (r :: rs)
  end.

(** The injection record a command leaves when issued on [slide] at
    [now]. *)
Definition record_of (slide : Z) (nc : timestamp * content_command)
  : InjectionRecord :=
  match nc.2 with
  | InjectImage prompt ph =>
      mkInjection nc.1 slide ph "image"
        (VDict [("prompt", VStr prompt); ("status", VStr "stub");
                ("message", VStr "Image generation not yet implemented")])
  | AddContent content ph => mkInjection nc.1 slide ph "text" (VStr content)
  end.

End ContentCommands.

(** * Properties of StateManager *)

Module StateManagerFacts.

Import StateManager Guards.

Ltac range_cases s i :=
  unfold out_of_range in *;
  destruct (Z.ltb_spec 0 (total_slides s));
  destruct (Z.ltb_spec i 0);
  destruct (Z.leb_spec (total_slides s) i);
  simpl in *; try discriminate; try lia.

Lemma out_of_range_true s i :
  out_of_range s i = true ↔ 0 < total_slides s ∧ ¬ (0 ≤ i < total_slides s).
Proof. split; [intros H | intros [H1 H2]]; range_cases s i. Qed.

Lemma out_of_range_false s i :
  out_of_range s i = false ↔ (0 < total_slides s → 0 ≤ i < total_slides s).
Proof. split; intros H; range_cases s i. Qed.

(** What [set_current_slide] does, by cases on the range test. *)
Lemma set_current_slide_cases i s :
  (out_of_range s i = true ∧ ∃ e, set_current_slide i s = (inl e, s))
  ∨ (out_of_range s i = false
     ∧ set_current_slide i s = (inr (), with_current_slide s i)).
Proof.
  unfold set_current_slide. destruct (out_of_range s i); eauto.
Qed.

(** What [navigate] does: it raises and leaves the state alone, or it
    commits an index that passed the range test. *)
Lemma navigate_cases d idx s :
  (∃ e, navigate d idx s = (inl e, s))
  ∨ (∃ n, navigate d idx s = (inr n, with_current_slide s n)
          ∧ out_of_range s n = false).
Proof.
  unfold navigate.
  destruct (String.eqb d "next"); [|destruct (String.eqb d "prev");
    [|destruct (String.eqb d "jump"); [destruct idx|]]];
  try (left; eexists; reflexivity);
  match goal with
  | |- context [out_of_range s ?n] =>
      destruct (out_of_range s n) eqn:E; [left | right]; eauto
  end.
Qed.

(** The index a successful [navigate] returns and commits. *)
Lemma navigate_inv d idx s n s' :
  navigate d idx s = (inr n, s') →
  s' = with_current_slide s n ∧ out_of_range s n = false
  ∧ ((d = "next" ∧ n = next_index s)
     ∨ (d = "prev" ∧ n = prev_index s)
     ∨ (d = "jump" ∧ idx = Some n)).
Proof.
  unfold navigate, next_index, prev_index.
  destruct (String.eqb_spec d "next") as [->|_];
    [|destruct (String.eqb_spec d "prev") as [->|_];
      [|destruct (String.eqb_spec d "jump") as [->|_];
        [destruct idx as [i|]|]]];
  try discriminate;
  match goal with
  | |- context [out_of_range s ?x] => destruct (out_of_range s x) eqn:E
  end;
  intros He; inversion He; subst; auto 6.
Qed.

Lemma with_current_slide_same s : with_current_slide s (current_slide s) = s.
Proof. by destruct s. Qed.

(** A call changes the total only if it is [set_total_slides]. *)
Lemma call_total_slides now o s :
  total_slides (call now o s).2 =
  match o with SetTotalSlides n => n | _ => total_slides s end.
Proof.
  destruct o; try reflexivity.
  - unfold call.
    destruct (set_current_slide_cases index s) as [[_ [e ->]] | [_ ->]];
      reflexivity.
  - unfold call, ignore.
    destruct (navigate_cases direction index s) as [[e ->] | [n [-> _]]];
      reflexivity.
Qed.

(** One call keeps the slide bound, unless it is a [set_total_slides] that
    does not cover the current slide. *)
Lemma call_slide_bound now o s :
  slide_bound s → keeps_bound o s → slide_bound (call now o s).2.
Proof.
  intros Hb Hk. destruct o; try exact Hb.
  - destruct (set_current_slide_cases index s) as [[_ [e He]] | [Hr He]];
      unfold call; rewrite He; [exact Hb|].
    exact (proj1 (out_of_range_false _ _) Hr).
  - unfold call, ignore.
    destruct (navigate_cases direction index s) as [[e ->] | [n [-> Hr]]];
      [exact Hb|].
    exact (proj1 (out_of_range_false _ _) Hr).
  - exact Hk.
  - unfold slide_bound. simpl. lia.
Qed.

Lemma run_slide_bound calls : ∀ s,
  slide_bound s → totals_cover_current calls s → slide_bound (run calls s).
Proof.
  induction calls as [|[now o] rest IH]; intros s Hb Hc; [exact Hb|].
  destruct Hc as [Hk Hrest]. simpl. apply IH; [|exact Hrest].
  by apply call_slide_bound.
Qed.

Lemma init_slide_bound now T : slide_bound (init now T).
Proof. unfold slide_bound. simpl. lia. Qed.

(** Under the slide bound the indices computed for "next" and "prev" pass
    the range test. *)
Lemma next_index_in_range s :
  slide_bound s → out_of_range s (next_index s) = false.
Proof.
  intros Hb. apply out_of_range_false. intros HT. specialize (Hb HT).
  unfold next_index. destruct (Z.ltb_spec 0 (total_slides s)); lia.
Qed.

Lemma prev_index_in_range s :
  slide_bound s → out_of_range s (prev_index s) = false.
Proof.
  intros Hb. apply out_of_range_false. intros HT. specialize (Hb HT).
  unfold prev_index. lia.
Qed.

Lemma navigate_next_ok s idx :
  slide_bound s →
  navigate "next" idx s = (inr (next_index s), with_current_slide s (next_index s)).
Proof.
  intros Hb. unfold navigate. cbn [String.eqb Ascii.eqb Bool.eqb].
  fold (next_index s). by rewrite next_index_in_range.
Qed.

Lemma navigate_prev_ok s idx :
  slide_bound s →
  navigate "prev" idx s = (inr (prev_index s), with_current_slide s (prev_index s)).
Proof.
  intros Hb. unfold navigate. cbn [String.eqb Ascii.eqb Bool.eqb].
  fold (prev_index s). by rewrite prev_index_in_range.
Qed.

Lemma navigate_jump_none s :
  navigate "jump" None s
  = (inl (PyExc ValueError "Index required for 'jump' navigation"), s).
Proof. reflexivity. Qed.

Lemma navigate_jump_some s i :
  navigate "jump" (Some i) s
  = if out_of_range s i
    then (inl (PyExc ValueError
                 ("Cannot navigate to slide " +:+ pretty i
                  +:+ " (range: 0-" +:+ pretty (total_slides s - 1)
                  +:+ ")")), s)
    else (inr i, with_current_slide s i).
Proof. reflexivity. Qed.

End StateManagerFacts.

(** * The slide bound (C1) *)

Module SlideBound.

Import StateManager Guards StateManagerFacts.

(** C1, as stated, does not hold: [StateManager(total_slides=10)],
    [set_current_slide(5)], [set_total_slides(3)] is a sequence of
    successful public operations, and it ends with [total_slides = 3 > 0]
    and [current_slide = 5], outside [[0,3)].  [set_total_slides] did not
    fail although its result violates the bound. *)
Lemma set_total_slides_breaks_slide_bound :
  all_succeed Traces.shrink_below_current (init 0 10) = true
  ∧ total_slides (run Traces.shrink_below_current (init 0 10)) = 3
  ∧ current_slide (run Traces.shrink_below_current (init 0 10)) = 5
  ∧ ¬ slide_bound (run Traces.shrink_below_current (init 0 10)).
Proof.
  repeat split. intros H. unfold slide_bound in H. cbn in H. lia.
Qed.

(** C1, amended.  In every state reachable from initialization by public
    operations in which every [set_total_slides(n)] with [n > 0] is issued
    while [0 <= current_slide < n], [total_slides > 0] implies
    [0 <= current_slide < total_slides].  [set_current_slide] and
    [navigate] keep the bound by themselves: a [set_current_slide(i)] with
    [i] outside the range of a positive total raises and leaves the state
    as it was, and [navigate] either raises and leaves the state as it was
    or commits an index inside the range.  [set_total_slides] makes no
    check: it always succeeds and commits the total it is given. *)
Theorem slide_bound_invariant :
  (∀ now T calls,
     totals_cover_current calls (init now T) →
     slide_bound (run calls (init now T)))
  ∧ (∀ s i,
       0 < total_slides s → ¬ (0 ≤ i < total_slides s) →
       ∃ e, set_current_slide i s = (inl e, s))
  ∧ (∀ s d idx,
       (∃ e, navigate d idx s = (inl e, s))
       ∨ (∃ n, navigate d idx s = (inr n, with_current_slide s n)
               ∧ (0 < total_slides s → 0 ≤ n < total_slides s)))
  ∧ (∀ s n, set_total_slides n s = (inr (), with_total_slides s n)).
Proof.
  split; [|split; [|split]].
  - intros now T calls Hc. apply run_slide_bound; [|exact Hc].
    apply init_slide_bound.
  - intros s i HT Hi.
    destruct (set_current_slide_cases i s) as [[_ He] | [Hr _]]; [exact He|].
    pose proof (proj1 (out_of_range_false _ _) Hr). tauto.
  - intros s d idx.
    destruct (navigate_cases d idx s) as [He | [n [He Hr]]]; [by left|].
    right. exists n. split; [exact He|]. by apply out_of_range_false.
  - reflexivity.
Qed.

Lemma slide_bound_invariant_witness :
  slide_bound
    (run [(1, Navigate "next" None); (2, SetCurrentSlide 3);
          (3, SetTotalSlides 20); (4, Navigate "jump" (Some 15));
          (5, Navigate "jump" (Some 40)); (6, SetTotalSlides 16)]
         (init 0 10)).
Proof.
  apply (proj1 slide_bound_invariant 0 10). cbv -[Z.lt Z.le]. lia.
Defined.

End SlideBound.

(** * Non-negative slide index (C8) *)

Module NonNegative.

Import StateManager Guards StateManagerFacts.

(** C8, as stated, does not hold: on [StateManager(total_slides=0)] the
    call [set_current_slide(-5)] passes the range test, which is guarded by
    [total_slides > 0], and commits [-5]. *)
Lemma set_current_slide_commits_negative :
  set_current_slide (-5) (init 0 0) = (inr (), with_current_slide (init 0 0) (-5))
  ∧ ¬ (0 ≤ current_slide (run [(1, SetCurrentSlide (-5))] (init 0 0))).
Proof. split; [reflexivity|]. cbn. lia. Qed.

Lemma call_current_nonneg now o s :
  0 ≤ current_slide s → index_checked_or_nonneg o s →
  0 ≤ current_slide (call now o s).2.
Proof.
  intros Hc Hg. destruct o; try exact Hc; try reflexivity.
  - unfold call.
    destruct (set_current_slide_cases index s) as [[_ [e ->]] | [Hr ->]];
      [exact Hc|].
    simpl in *. range_cases s index.
  - unfold call, ignore.
    destruct (navigate_cases direction index s) as [[e ->] | [n [He Hr]]];
      [exact Hc|].
    rewrite He. simpl.
    apply navigate_inv in He as (_ & _ & [[_ ->] | [[_ ->] | [-> ->]]]).
    + unfold next_index. destruct (0 <? total_slides s) eqn:E; lia.
    + unfold prev_index. lia.
    + simpl in Hg. range_cases s n.
Qed.

Lemma run_current_nonneg calls : ∀ s,
  0 ≤ current_slide s → indices_checked_or_nonneg calls s →
  0 ≤ current_slide (run calls s).
Proof.
  induction calls as [|[now o] rest IH]; intros s Hc Hg; [exact Hc|].
  destruct Hg as [Hg Hrest]. simpl. apply IH; [|exact Hrest].
  by apply call_current_nonneg.
Qed.

(** C8, amended.  [current_slide >= 0] holds in every state reachable from
    initialization by public operations in which every index given to
    [set_current_slide] or to a jump is either given while
    [total_slides > 0] or is not negative.  While [total_slides > 0],
    [set_current_slide] never commits a negative index; while
    [total_slides <= 0] it commits whatever index it is given, negative
    ones included. *)
Theorem current_slide_nonneg :
  (∀ now T calls,
     indices_checked_or_nonneg calls (init now T) →
     0 ≤ current_slide (run calls (init now T)))
  ∧ (∀ s i s',
       0 < total_slides s → set_current_slide i s = (inr (), s') →
       0 ≤ current_slide s')
  ∧ (∀ s i,
       total_slides s ≤ 0 →
       set_current_slide i s = (inr (), with_current_slide s i)).
Proof.
  split; [|split].
  - intros now T calls Hg. apply run_current_nonneg; [simpl; lia | exact Hg].
  - intros s i s' HT He.
    destruct (set_current_slide_cases i s) as [[_ [e He']] | [Hr He']];
      rewrite He' in He; [discriminate|].
    injection He as <-. simpl. range_cases s i.
  - intros s i HT.
    destruct (set_current_slide_cases i s) as [[Hr _] | [_ He]]; [|exact He].
    range_cases s i.
Qed.

Lemma current_slide_nonneg_witness :
  0 ≤ current_slide
        (run [(1, Navigate "prev" None); (2, SetCurrentSlide 7);
              (3, SetTotalSlides 4); (4, SetCurrentSlide (-2));
              (5, Navigate "jump" (Some (-1))); (6, Navigate "next" None)]
             (init 0 0)).
Proof.
  apply (proj1 current_slide_nonneg 0 0). cbv -[Z.lt Z.le]. lia.
Defined.

End NonNegative.

(** * What navigate computes (C3) *)

Module NavigateResult.

Import StateManager Guards StateManagerFacts.

(** C3, as stated, does not hold for [total_slides = 0]: the second
    argument of [min] is [total_slides - 1 if total_slides > 0 else 0], so
    [navigate("next")] on a fresh [StateManager(total_slides=0)] returns
    [min(0 + 1, 0) = 0] and not [current_slide + 1 = 1]. *)
Lemma navigate_next_unbounded_is_capped :
  total_slides (init 0 0) = 0
  ∧ navigate "next" None (init 0 0) = (inr 0, init 0 0)
  ∧ current_slide (navigate "next" None (init 0 0)).2
    ≠ current_slide (init 0 0) + 1.
Proof. repeat split. cbn. lia. Qed.

(** C3, amended.  In a state that satisfies the slide bound,
    [navigate("next")] returns and commits
    [min(current_slide + 1, total_slides - 1)] when [total_slides > 0] and
    [min(current_slide + 1, 0)] when [total_slides <= 0];
    [navigate("prev")] returns and commits [max(current_slide - 1, 0)]; and
    [navigate("next")] at [current_slide = total_slides - 1] succeeds,
    returns [total_slides - 1] and leaves the state as it was. *)
Theorem navigate_next_prev s idx :
  slide_bound s →
  (0 < total_slides s →
     navigate "next" idx s
     = (inr (Z.min (current_slide s + 1) (total_slides s - 1)),
        with_current_slide s (Z.min (current_slide s + 1) (total_slides s - 1))))
  ∧ (total_slides s ≤ 0 →
       navigate "next" idx s
       = (inr (Z.min (current_slide s + 1) 0),
          with_current_slide s (Z.min (current_slide s + 1) 0)))
  ∧ navigate "prev" idx s
    = (inr (Z.max (current_slide s - 1) 0),
       with_current_slide s (Z.max (current_slide s - 1) 0))
  ∧ (0 < total_slides s → current_slide s = total_slides s - 1 →
       navigate "next" idx s = (inr (total_slides s - 1), s)).
Proof.
  intros Hb. pose proof (navigate_next_ok s idx Hb) as Hn.
  unfold next_index in Hn.
  split; [|split; [|split]].
  - intros HT. rewrite Hn.
    by destruct (Z.ltb_spec 0 (total_slides s)); [|lia].
  - intros HT. rewrite Hn.
    by destruct (Z.ltb_spec 0 (total_slides s)); [lia|].
  - exact (navigate_prev_ok s idx Hb).
  - intros HT Hc. rewrite Hn.
    destruct (Z.ltb_spec 0 (total_slides s)); [|lia].
    replace (Z.min (current_slide s + 1) (total_slides s - 1))
      with (current_slide s) by lia.
    by rewrite with_current_slide_same, Hc.
Qed.

Lemma navigate_next_prev_witness :
  navigate "next" None (run [(1, SetCurrentSlide 9)] (init 0 10))
  = (inr 9, run [(1, SetCurrentSlide 9)] (init 0 10))
  ∧ navigate "prev" None (run [(1, SetCurrentSlide 5)] (init 0 10))
    = (inr 4, with_current_slide (init 0 10) 4).
Proof.
  split.
  - apply (navigate_next_prev (run [(1, SetCurrentSlide 9)] (init 0 10)) None);
      unfold slide_bound; cbn; lia.
  - apply (navigate_next_prev (run [(1, SetCurrentSlide 5)] (init 0 10)) None).
    unfold slide_bound; cbn; lia.
Defined.

End NavigateResult.

(** * When navigate fails (C6) *)

Module NavigateFailure.

Import StateManager Guards StateManagerFacts.

(** C6, as stated, does not hold: after [StateManager(total_slides=10)],
    [set_current_slide(5)], [set_total_slides(3)], the call
    [navigate("prev")] computes [4], which fails the range test against the
    new total; navigate fails although the direction is not "jump". *)
Lemma navigate_prev_fails_after_shrink :
  navigate "prev" None (run Traces.shrink_below_current (init 0 10))
  = (inl (PyExc ValueError "Cannot navigate to slide 4 (range: 0-2)"),
     run Traces.shrink_below_current (init 0 10)).
Proof. reflexivity. Qed.

(** C6, amended.  [navigate("jump", index=i)] with [total_slides = T > 0]
    and [i] outside [[0,T)] fails with an error and leaves the state as it
    was; [navigate("jump")] with no index fails with the error "Index
    required for 'jump' navigation" and leaves the state as it was; and in
    a state that satisfies the slide bound, for a direction among next,
    prev and jump, navigate fails in no other case. *)
Theorem navigate_failure_cases :
  (∀ s i,
     0 < total_slides s → ¬ (0 ≤ i < total_slides s) →
     ∃ e, navigate "jump" (Some i) s = (inl e, s))
  ∧ (∀ s,
       navigate "jump" None s
       = (inl (PyExc ValueError "Index required for 'jump' navigation"), s))
  ∧ (∀ s d idx e s',
       slide_bound s → d ∈ ["next"; "prev"; "jump"] →
       navigate d idx s = (inl e, s') →
       s' = s ∧ d = "jump"
       ∧ (idx = None
          ∨ ∃ i, idx = Some i ∧ 0 < total_slides s
                 ∧ ¬ (0 ≤ i < total_slides s))).
Proof.
  split; [|split].
  - intros s i HT Hi. rewrite navigate_jump_some.
    rewrite (proj2 (out_of_range_true s i)) by tauto. eauto.
  - intros s. apply navigate_jump_none.
  - intros s d idx e s' Hb Hd He.
    rewrite !elem_of_cons, elem_of_nil in Hd.
    destruct Hd as [-> | [-> | [-> | []]]].
    + rewrite navigate_next_ok in He by exact Hb. discriminate.
    + rewrite navigate_prev_ok in He by exact Hb. discriminate.
    + destruct idx as [i|].
      * rewrite navigate_jump_some in He.
        destruct (out_of_range s i) eqn:E; [|discriminate].
        apply out_of_range_true in E as [HT Hi].
        inversion He; subst. eauto 8.
      * rewrite navigate_jump_none in He. inversion He; subst. auto.
Qed.

Lemma navigate_failure_cases_witness :
  init 0 10 = init 0 10 ∧ "jump" = "jump"
  ∧ (Some 12 = None
     ∨ ∃ i, Some 12 = Some i ∧ 0 < total_slides (init 0 10)
            ∧ ¬ (0 ≤ i < total_slides (init 0 10))).
Proof.
  apply (proj2 (proj2 navigate_failure_cases) (init 0 10) "jump" (Some 12)
           (PyExc ValueError "Cannot navigate to slide 12 (range: 0-9)")
           (init 0 10)).
  - unfold slide_bound. cbn. lia.
  - rewrite !elem_of_cons. auto.
  - reflexivity.
Defined.

End NavigateFailure.

(** * Recent transcript entries (C4) *)

Module RecentTranscript.

Import StateManager.

Lemma py_slice_from_neg {A} (n : Z) (l : list A) :
  0 < n → py_slice_from (- n) l = drop (length l - Z.to_nat n) l.
Proof.
  intros Hn. unfold py_slice_from.
  destruct (Z.ltb_spec (- n) 0); [|lia]. f_equal. lia.
Qed.

Lemma py_slice_from_nonneg {A} (n : Z) (l : list A) :
  0 ≤ n → py_slice_from n l = drop (Z.to_nat n) l.
Proof.
  intros Hn. unfold py_slice_from.
  destruct (Z.ltb_spec n 0); [lia|].
  destruct (Z.le_gt_cases n (Z.of_nat (length l))).
  - f_equal. lia.
  - rewrite !drop_ge by lia. reflexivity.
Qed.

(** For [n > 0] the result is the last [min(n, k)] entries, in order. *)
Lemma get_recent_transcript_pos n s :
  0 < n →
  get_recent_transcript n s
  = (inr (drop (length (transcript s) - Z.to_nat n) (transcript s)), s).
Proof.
  intros Hn. unfold get_recent_transcript.
  destruct (transcript s) as [|e l] eqn:E; [by rewrite drop_nil|].
  by rewrite py_slice_from_neg.
Qed.

Lemma get_recent_transcript_pos_length n s l :
  0 < n → get_recent_transcript n s = (inr l, s) →
  length l = Nat.min (Z.to_nat n) (length (transcript s)).
Proof.
  intros Hn. rewrite get_recent_transcript_pos by exact Hn.
  intros He. inversion He. rewrite length_drop. lia.
Qed.

(** For [n <= 0] the slice [transcript[-n:]] starts at index [-n] from the
    front: it drops the first [-n] entries and keeps the rest. *)
Lemma get_recent_transcript_nonpos n s :
  n ≤ 0 →
  get_recent_transcript n s = (inr (drop (Z.to_nat (- n)) (transcript s)), s).
Proof.
  intros Hn. unfold get_recent_transcript.
  destruct (transcript s) as [|e l] eqn:E; [by rewrite drop_nil|].
  by rewrite py_slice_from_nonneg by lia.
Qed.

(** C4 at its failing input.  With three entries appended,
    [get_recent_transcript(0)] returns all three entries and
    [get_recent_transcript(-1)] returns the last two, where the claim (and
    the docstring "the n most recent transcript entries") asks for the
    empty sequence. *)
Theorem get_recent_transcript_zero_returns_all :
  get_recent_transcript 0 (run Traces.three_entries (init 0 10))
  = (inr (transcript (run Traces.three_entries (init 0 10))),
     run Traces.three_entries (init 0 10))
  ∧ te_text <$> transcript (run Traces.three_entries (init 0 10))
    = ["alpha"; "beta"; "gamma"]
  ∧ (get_recent_transcript (-1) (run Traces.three_entries (init 0 10))).1
    = inr (drop 1 (transcript (run Traces.three_entries (init 0 10)))).
Proof. repeat split. Qed.

End RecentTranscript.

(** * Summaries (C5, C7, C9) *)

Module Summary.

Import StateManager SlideTools RecentTranscript.

Lemma summary_bullets_filter texts :
  summary_bullets texts
  = bullet <$> filter (λ x, qualifies x = true) (take 5 texts).
Proof.
  unfold summary_bullets.
  enough (∀ l acc,
    foldl (λ acc text, if qualifies text then acc ++ [bullet text] else acc)
          acc l
    = acc ++ (bullet <$> filter (λ x, qualifies x = true) l)) as H
    by apply (H _ []).
  induction l as [|x l IH]; intros acc; simpl.
  - by rewrite app_nil_r.
  - rewrite IH, filter_cons. destruct (qualifies x) eqn:E.
    + rewrite decide_True by reflexivity. by rewrite <- app_assoc.
    + rewrite decide_False by discriminate. reflexivity.
Qed.

Lemma filter_none {A} (P : A → Prop) `{∀ x, Decision (P x)} (l : list A) :
  Forall (λ x, ¬ P x) l → filter P l = [].
Proof.
  induction 1 as [|x l Hx _ IH]; [reflexivity|].
  by rewrite filter_cons, decide_False.
Qed.

Lemma qualifies_spec x : qualifies x = true ↔ (10 < String.length x)%nat.
Proof. unfold qualifies. apply Nat.ltb_lt. Qed.

(** The entries [get_recent_transcript(n=20)] hands to the summary. *)
Lemma recent_20 s :
  get_recent_transcript 20 s
  = (inr (drop (length (transcript s) - 20) (transcript s)), s).
Proof. by rewrite get_recent_transcript_pos. Qed.

Lemma recent_20_nonempty s :
  transcript s ≠ [] → drop (length (transcript s) - 20) (transcript s) ≠ [].
Proof.
  intros Hne Hd. apply (f_equal length) in Hd. rewrite length_drop in Hd.
  destruct (transcript s); [done|]. simpl in Hd. lia.
Qed.

(** The successful path of [generate_summary], entered whenever the
    transcript is not empty. *)
Lemma summary_success_path now s :
  transcript s ≠ [] →
  generate_summary now s
  = (inr [("action", VStr "inject_summary");
          ("summary",
           VStr (summary_of
                   (drop (length (transcript s) - 20) (transcript s))));
          ("slide_index", VInt (current_slide s)); ("success", VBool true);
          ("stub", VBool true);
          ("message",
           VStr "Basic summary - will be improved with Gemini API")],
     with_injections s
       (injections s
        ++ [mkInjection now (current_slide s) "AI:SUMMARY" "summary"
              (VStr (summary_of
                       (drop (length (transcript s) - 20) (transcript s))))])).
Proof.
  intros Hne. apply recent_20_nonempty in Hne.
  unfold generate_summary, try_except_Exception, mbind, M_bind.
  rewrite recent_20.
  destruct (drop (length (transcript s) - 20) (transcript s)) as [|e l];
    [done|].
  reflexivity.
Qed.

End Summary.

Module GenerateSummary.

Import StateManager SlideTools RecentTranscript Summary.

(** C5, as stated, does not hold.  With five entries of at most 10
    characters followed by "Revenue grew by ten percent", all six entries
    are among the last 20 and the first 5 qualifying entries consist of the
    sixth entry, so the claim asks for one bullet; [generate_summary] looks
    at [texts[:5]] only and records the empty summary. *)
Lemma generate_summary_skips_sixth_entry :
  (get_recent_transcript 20 (run Traces.five_short_one_long (init 0 0))).1
  = inr (transcript (run Traces.five_short_one_long (init 0 0)))
  ∧ bullets_of_first_5_qualifying
      (te_text <$> transcript (run Traces.five_short_one_long (init 0 0)))
    = ["- Revenue grew by ten percent..."]
  ∧ inj_content <$>
      last (injections
              (generate_summary 7
                 (run Traces.five_short_one_long (init 0 0))).2)
    = Some (VStr "").
Proof. repeat split. Qed.

(** C5, amended.  When the transcript is non-empty, [generate_summary]
    reads the last 20 transcript entries, takes the first 5 of them and
    derives one bullet for each of these 5 whose text is longer than 10
    characters (the bullet is "- ", the first 100 characters of the text,
    and "..."), joins the bullets with newlines, appends exactly one
    injection, with content-type "summary", placeholder "AI:SUMMARY", the
    current slide and the joined bullets as content, and returns
    [success = True] with [stub = True]. *)
Theorem generate_summary_nonempty now s :
  transcript s ≠ [] →
  let recent := drop (length (transcript s) - 20) (transcript s) in
  let summary :=
    String.concat newline
      ((λ text, "- " +:+ String.substring 0 100 text +:+ "...")
         <$> filter (λ text, (10 < String.length text)%nat)
                    (take 5 (te_text <$> recent))) in
  ∃ d,
    generate_summary now s
    = (inr d,
       with_injections s
         (injections s
          ++ [mkInjection now (current_slide s) "AI:SUMMARY" "summary"
                (VStr summary)]))
    ∧ dict_get d "success" = Some (VBool true)
    ∧ dict_get d "stub" = Some (VBool true)
    ∧ dict_get d "summary" = Some (VStr summary).
Proof.
  intros Hne recent summary.
  assert (summary_of recent = summary) as Hs.
  { unfold summary_of, summary. rewrite summary_bullets_filter.
    do 2 f_equal. apply list_filter_iff. intros x. apply qualifies_spec. }
  rewrite summary_success_path by exact Hne.
  fold recent. rewrite Hs. eexists. split; [reflexivity|]. by repeat split.
Qed.

Lemma generate_summary_nonempty_witness :
  ∃ d,
    generate_summary 7 (run Traces.five_short_one_long (init 0 0))
    = (inr d,
       with_injections (run Traces.five_short_one_long (init 0 0))
         [mkInjection 7 0 "AI:SUMMARY" "summary" (VStr "")])
    ∧ dict_get d "success" = Some (VBool true)
    ∧ dict_get d "stub" = Some (VBool true)
    ∧ dict_get d "summary" = Some (VStr "").
Proof.
  apply (generate_summary_nonempty 7
           (run Traces.five_short_one_long (init 0 0))).
  vm_compute. discriminate.
Defined.

(** C7.  With an empty transcript, [generate_summary] returns
    [success = False] with the error "No transcript available to
    summarize", and leaves the state, the injection log included, as it
    was. *)
Theorem generate_summary_empty now s :
  transcript s = [] →
  generate_summary now s
  = (inr [("action", VStr "generate_summary"); ("success", VBool false);
          ("error", VStr "No transcript available to summarize")], s)
  ∧ injections (generate_summary now s).2 = injections s.
Proof.
  intros He.
  assert (generate_summary now s
          = (inr [("action", VStr "generate_summary");
                  ("success", VBool false);
                  ("error", VStr "No transcript available to summarize")],
             s)) as H.
  { unfold generate_summary, try_except_Exception, mbind, M_bind,
      get_recent_transcript. by rewrite He. }
  by rewrite H.
Qed.

Lemma generate_summary_empty_witness :
  generate_summary 3 (init 0 10)
  = (inr [("action", VStr "generate_summary"); ("success", VBool false);
          ("error", VStr "No transcript available to summarize")],
     init 0 10)
  ∧ injections (generate_summary 3 (init 0 10)).2 = injections (init 0 10).
Proof. apply (generate_summary_empty 3 (init 0 10)). reflexivity. Defined.

(** C9.  If the transcript is non-empty and none of the first 5 of the
    last 20 entries has a text longer than 10 characters,
    [generate_summary] still returns [success = True] with [stub = True]
    and still appends exactly one injection with content-type "summary",
    whose content is the empty string. *)
Theorem generate_summary_no_qualifying now s :
  transcript s ≠ [] →
  Forall (λ e, (String.length (te_text e) ≤ 10)%nat)
         (take 5 (drop (length (transcript s) - 20) (transcript s))) →
  ∃ d,
    generate_summary now s
    = (inr d,
       with_injections s
         (injections s
          ++ [mkInjection now (current_slide s) "AI:SUMMARY" "summary"
                (VStr "")]))
    ∧ dict_get d "success" = Some (VBool true)
    ∧ dict_get d "stub" = Some (VBool true).
Proof.
  intros Hne Hshort.
  assert (summary_of (drop (length (transcript s) - 20) (transcript s)) = "")
    as Hs.
  { unfold summary_of. rewrite summary_bullets_filter.
    rewrite <- fmap_take.
    replace (filter _ _) with (@nil string); [reflexivity|].
    symmetry. apply filter_none.
    rewrite Forall_fmap. eapply Forall_impl; [exact Hshort|].
    intros e He. simpl in *. rewrite qualifies_spec. lia. }
  rewrite summary_success_path by exact Hne.
  rewrite Hs. eexists. split; [reflexivity|]. by split.
Qed.

Lemma generate_summary_no_qualifying_witness :
  ∃ d,
    generate_summary 9 (run Traces.three_entries (init 0 10))
    = (inr d,
       with_injections (run Traces.three_entries (init 0 10))
         [mkInjection 9 0 "AI:SUMMARY" "summary" (VStr "")])
    ∧ dict_get d "success" = Some (VBool true)
    ∧ dict_get d "stub" = Some (VBool true).
Proof.
  apply (generate_summary_no_qualifying 9
           (run Traces.three_entries (init 0 10))).
  - vm_compute. discriminate.
  - vm_compute. repeat constructor.
Defined.

End GenerateSummary.

(** * Dispatch of tool calls (C2) *)

Module ExecuteTool.

Import ToolExecutor.

(** C2, as stated, does not hold: [execute_tool] catches [Exception], and
    [asyncio.CancelledError] is not one.  When the registered handler
    raises it, [execute_tool] returns nothing and the exception reaches its
    caller, as [handle_tool_calls] expects ([except asyncio.CancelledError:
    raise]). *)
Lemma execute_tool_propagates_cancellation :
  execute_tool Handlers.registry "cancelled_tool" "id1" None ()
  = (inl (PyExc CancelledError ""), ()).
Proof. vm_compute. reflexivity. Qed.

Lemma execute_tool_unfold {S} (self : t S) name call_id args s :
  execute_tool self name call_id args s
  = match tools self !! name with
    | None =>
        (inr (mkResponse call_id name
                [("result", VStr "error: unknown function");
                 ("error", VStr ("Unknown function: " +:+ name))]), s)
    | Some func =>
        match invoke func (default [] args) s with
        | (inr v, s') =>
            (inr (mkResponse call_id name
                    [("result", VStr "success"); ("data", v)]), s')
        | (inl e, s') =>
            if is_Exception (exc_cls e)
            then (inr (mkResponse call_id name
                         [("result", VStr "error");
                          ("error", VStr (str_exc e))]), s')
            else (inl e, s')
        end
    end.
Proof.
  unfold execute_tool. destruct (tools self !! name) as [func|]; [|reflexivity].
  unfold try_except_Exception, mbind, M_bind.
  destruct (invoke func (default [] args) s) as [[e|v] s']; reflexivity.
Qed.

(** C2, amended.  For every name, call id and argument mapping:
    if the name is not registered, [execute_tool] returns a response with
    that id and name whose result is "error: unknown function", with an
    error message; if the registered handler returns [v], it returns a
    response with that id and name whose result is "success" with data
    [v]; if the handler raises an exception that is an instance of
    [Exception], it returns a response with that id and name whose result
    is "error" with [str(e)] as error text.  [execute_tool] raises to its
    caller only an exception of its handler that is not an instance of
    [Exception] (task cancellation, keyboard interrupt, system exit), and
    every such exception of the handler it lets through unchanged, with
    the state the handler left. *)
Theorem execute_tool_result {S} (self : t S) name call_id args s :
  (tools self !! name = None →
     execute_tool self name call_id args s
     = (inr (mkResponse call_id name
               [("result", VStr "error: unknown function");
                ("error", VStr ("Unknown function: " +:+ name))]), s))
  ∧ (∀ func v s',
       tools self !! name = Some func →
       invoke func (default [] args) s = (inr v, s') →
       execute_tool self name call_id args s
       = (inr (mkResponse call_id name
                 [("result", VStr "success"); ("data", v)]), s'))
  ∧ (∀ func e s',
       tools self !! name = Some func →
       invoke func (default [] args) s = (inl e, s') →
       is_Exception (exc_cls e) = true →
       execute_tool self name call_id args s
       = (inr (mkResponse call_id name
                 [("result", VStr "error"); ("error", VStr (str_exc e))]),
          s'))
  ∧ (∀ e s',
       execute_tool self name call_id args s = (inl e, s') →
       is_Exception (exc_cls e) = false
       ∧ ∃ func, tools self !! name = Some func
                 ∧ invoke func (default [] args) s = (inl e, s'))
  ∧ (∀ func e s',
       tools self !! name = Some func →
       invoke func (default [] args) s = (inl e, s') →
       is_Exception (exc_cls e) = false →
       execute_tool self name call_id args s = (inl e, s')).
Proof.
  rewrite execute_tool_unfold. split; [|split; [|split; [|split]]];
    [| | | |by intros func e s' -> -> ->].
  - by intros ->.
  - by intros func v s' -> ->.
  - by intros func e s' -> -> ->.
  - intros e s'. destruct (tools self !! name) as [func|]; [|discriminate].
    destruct (invoke func (default [] args) s) as [[e0|v] s0] eqn:Hi;
      [|discriminate].
    destruct (is_Exception (exc_cls e0)) eqn:E; [discriminate|].
    intros He. inversion He; subst. split; [exact E|]. by exists func.
Qed.

Lemma execute_tool_result_witness :
  execute_tool Handlers.registry "error_tool" "id7" None ()
  = (inr (mkResponse "id7" "error_tool"
            [("result", VStr "error"); ("error", VStr "Intentional error")]),
     ())
  ∧ execute_tool Handlers.registry "unknown_tool" "id1" (Some []) ()
    = (inr (mkResponse "id1" "unknown_tool"
              [("result", VStr "error: unknown function");
               ("error", VStr "Unknown function: unknown_tool")]), ())
  ∧ execute_tool Handlers.registry "echo" "id2" (Some [("x", VInt 4)]) ()
    = (inr (mkResponse "id2" "echo"
              [("result", VStr "success"); ("data", VInt 4)]), ()).
Proof.
  split; [|split].
  - apply (proj1 (proj2 (proj2
             (execute_tool_result Handlers.registry "error_tool" "id7" None ())))
             Handlers.error_tool (PyExc ValueError "Intentional error") ());
      vm_compute; reflexivity.
  - apply (proj1 (execute_tool_result Handlers.registry "unknown_tool" "id1"
                    (Some []) ())).
    vm_compute. reflexivity.
  - apply (proj1 (proj2
             (execute_tool_result Handlers.registry "echo" "id2"
                (Some [("x", VInt 4)]) ()))
             Handlers.echo (VInt 4) ());
      vm_compute; reflexivity.
Defined.

End ExecuteTool.

(** * Starting capture twice (C10) *)

Module StartCapture.

Import AudioProcessor.

(** C10.  When capture is already running, [start_capture] returns
    normally after printing the warning "Warning: Audio capture is already
    running" to standard error: it raises nothing, opens no stream,
    creates no capture task, and leaves the processor ([is_running], the
    stream, the task and the queue) as it was. *)
Theorem start_capture_already_running self h :
  is_running self = true →
  start_capture (self, h)
  = (inr (),
     (self, print_stderr h "Warning: Audio capture is already running"))
  ∧ streams_opened (start_capture (self, h)).2.2 = streams_opened h
  ∧ tasks_created (start_capture (self, h)).2.2 = tasks_created h
  ∧ stderr (start_capture (self, h)).2.2
    = stderr h ++ ["Warning: Audio capture is already running"].
Proof.
  intros Hr. unfold start_capture. rewrite Hr. by repeat split.
Qed.

Lemma start_capture_already_running_witness :
  is_running Hosts.started.1 = true
  ∧ start_capture Hosts.started
    = (inr (),
       (Hosts.started.1,
        print_stderr Hosts.started.2
          "Warning: Audio capture is already running")).
Proof.
  split; [reflexivity|].
  apply (start_capture_already_running Hosts.started.1 Hosts.started.2).
  reflexivity.
Defined.

End StartCapture.

(** * Further properties of StateManager *)

Module StateManagerLog.

Import StateManager Guards CallShape StateManagerFacts.

(** What a call does to the transcript. *)
Lemma call_transcript now o s :
  transcript (call now o s).2 =
  match o with
  | AddTranscriptEntry text speaker md =>
      transcript s
      ++ [mkEntry now text speaker (current_slide s) (default ∅ md)]
  | ClearTranscript | ResetAll => []
  | _ => transcript s
  end.
Proof.
  destruct o; try reflexivity.
  - unfold call.
    destruct (set_current_slide_cases index s) as [[_ [e ->]] | [_ ->]];
      reflexivity.
  - unfold call, ignore.
    destruct (navigate_cases direction index s) as [[e ->] | [n [-> _]]];
      reflexivity.
Qed.

(** What a call does to the injection log. *)
Lemma call_injections now o s :
  injections (call now o s).2 =
  match o with
  | TrackInjection p ct c idx =>
      injections s
      ++ [mkInjection now (default (current_slide s) idx) p ct c]
  | ClearInjections | ResetAll => []
  | _ => injections s
  end.
Proof.
  destruct o; try reflexivity.
  - unfold call.
    destruct (set_current_slide_cases index s) as [[_ [e ->]] | [_ ->]];
      reflexivity.
  - unfold call, ignore.
    destruct (navigate_cases direction index s) as [[e ->] | [n [-> _]]];
      reflexivity.
Qed.

(** X1.  A public call that raises leaves the whole state as it was, and
    the only calls that can raise are [set_current_slide] and [navigate]. *)
Theorem failed_call_leaves_state now o s :
  succeeds now o s = false →
  (call now o s).2 = s
  ∧ ((∃ i, o = SetCurrentSlide i) ∨ (∃ d idx, o = Navigate d idx)).
Proof.
  unfold succeeds. destruct o; try discriminate.
  - unfold call.
    destruct (set_current_slide_cases index s) as [[_ [e ->]] | [_ ->]];
      [|discriminate]. eauto.
  - unfold call, ignore.
    destruct (navigate_cases direction index s) as [[e ->] | [n [-> _]]];
      [|discriminate]. eauto.
Qed.

Lemma failed_call_leaves_state_witness :
  (call 4 (Navigate "jump" (Some 12)) (init 0 10)).2 = init 0 10
  ∧ ((∃ i, Navigate "jump" (Some 12) = SetCurrentSlide i)
     ∨ (∃ d idx, Navigate "jump" (Some 12) = Navigate d idx)).
Proof.
  apply (failed_call_leaves_state 4 (Navigate "jump" (Some 12)) (init 0 10)).
  reflexivity.
Defined.

(** X2.  The transcript is append-only: along any sequence of calls with
    no [clear_transcript] and no [reset], the transcript before is a prefix
    of the transcript after, and it grows by exactly one entry per
    [add_transcript_entry] call. *)
Theorem transcript_append_only calls : ∀ s,
  Forall (λ c, clears_transcript c.2 = false) calls →
  transcript s `prefix_of` transcript (run calls s)
  ∧ length (transcript (run calls s))
    = (length (transcript s) + count_calls is_add_transcript_entry calls)%nat.
Proof.
  unfold count_calls.
  induction calls as [|[now o] rest IH]; intros s Hc.
  - simpl. split; [reflexivity | lia].
  - apply Forall_cons in Hc as [Ho Hrest].
    destruct (IH (call now o s).2 Hrest) as [Hp Hl].
    simpl run. rewrite Hl. rewrite call_transcript in *.
    rewrite filter_cons. simpl in *.
    destruct o; try discriminate;
      rewrite ?decide_False by discriminate;
      rewrite ?decide_True by reflexivity;
      try (split; [exact Hp | simpl; lia]).
    split.
    + etrans; [|exact Hp]. by apply prefix_app_r.
    + rewrite length_app. simpl. lia.
Qed.

Lemma transcript_append_only_witness :
  transcript (init 0 10)
    `prefix_of` transcript (run Traces.three_entries (init 0 10))
  ∧ length (transcript (run Traces.three_entries (init 0 10)))
    = Nat.add (length (transcript (init 0 10)))
              (count_calls is_add_transcript_entry Traces.three_entries).
Proof.
  apply (transcript_append_only Traces.three_entries (init 0 10)).
  repeat constructor.
Defined.

Lemma injections_records calls : ∀ s,
  Forall (λ c, clears_injections c.2 = false) calls →
  ∃ new,
    injections (run calls s) = injections s ++ new
    ∧ Forall2 records_call new
              (filter (λ c, is_track_injection c.2 = true) calls).
Proof.
  induction calls as [|[now o] rest IH]; intros s Hc.
  - exists []. simpl. rewrite app_nil_r. split; [reflexivity | constructor].
  - apply Forall_cons in Hc as [Ho Hrest].
    destruct (IH (call now o s).2 Hrest) as (new & Hrun & Hrec).
    simpl run. rewrite Hrun, call_injections, filter_cons. simpl in *.
    destruct o; try discriminate;
      rewrite ?decide_False by discriminate;
      rewrite ?decide_True by reflexivity;
      try (exists new; split; [reflexivity | exact Hrec]).
    eexists (_ :: new). split; [by rewrite <- app_assoc|].
    constructor; [|exact Hrec].
    unfold records_call. simpl. repeat split. by intros i ->.
Qed.

(** X3.  The injection log is append-only: along any sequence of calls
    with no [clear_injections] and no [reset], the log before is a prefix
    of the log after, it grows by exactly one record per [track_injection]
    call, and the records added are, in call order, one for each
    [track_injection] call, each carrying the time, placeholder, content
    type and content of its call, and its slide index when the call gives
    one. *)
Theorem injections_append_only calls : ∀ s,
  Forall (λ c, clears_injections c.2 = false) calls →
  injections s `prefix_of` injections (run calls s)
  ∧ length (injections (run calls s))
    = (length (injections s) + count_calls is_track_injection calls)%nat
  ∧ ∃ new,
      injections (run calls s) = injections s ++ new
      ∧ Forall2 records_call new
                (filter (λ c, is_track_injection c.2 = true) calls).
Proof.
  intros s Hc. destruct (injections_records calls s Hc) as (new & Hrun & Hrec).
  split; [|split].
  - rewrite Hrun. by apply prefix_app_r.
  - rewrite Hrun, length_app. unfold count_calls.
    by rewrite (Forall2_length _ _ _ Hrec).
  - by exists new.
Qed.

Lemma injections_append_only_witness :
  injections (init 0 10)
    `prefix_of`
    injections
      (run [(1, TrackInjection "AI:IMAGE" "image" (VStr "data1") None);
            (2, Navigate "next" None);
            (3, TrackInjection "AI:TEXT" "text" (VStr "data2") (Some 7))]
           (init 0 10))
  ∧ length
      (injections
         (run [(1, TrackInjection "AI:IMAGE" "image" (VStr "data1") None);
               (2, Navigate "next" None);
               (3, TrackInjection "AI:TEXT" "text" (VStr "data2") (Some 7))]
              (init 0 10)))
    = Nat.add
        (length (injections (init 0 10)))
        (count_calls is_track_injection
           [(1, TrackInjection "AI:IMAGE" "image" (VStr "data1") None);
            (2, Navigate "next" None);
            (3, TrackInjection "AI:TEXT" "text" (VStr "data2") (Some 7))])
  ∧ ∃ new,
      injections
        (run [(1, TrackInjection "AI:IMAGE" "image" (VStr "data1") None);
              (2, Navigate "next" None);
              (3, TrackInjection "AI:TEXT" "text" (VStr "data2") (Some 7))]
             (init 0 10))
      = injections (init 0 10) ++ new
      ∧ Forall2 records_call new
          (filter (λ c, is_track_injection c.2 = true)
             [(1, TrackInjection "AI:IMAGE" "image" (VStr "data1") None);
              (2, Navigate "next" None);
              (3, TrackInjection "AI:TEXT" "text" (VStr "data2") (Some 7))]).
Proof.
  apply (injections_append_only
           [(1, TrackInjection "AI:IMAGE" "image" (VStr "data1") None);
            (2, Navigate "next" None);
            (3, TrackInjection "AI:TEXT" "text" (VStr "data2") (Some 7))]
           (init 0 10)).
  repeat constructor.
Defined.

End StateManagerLog.

Module StateManagerViews.

Import StateManager Guards CallShape StateManagerFacts StateManagerLog.

Lemma run_transcript_in_range T calls : ∀ s,
  0 < T → total_slides s = T → slide_bound s →
  Forall (λ e, 0 ≤ te_slide_index e < T) (transcript s) →
  Forall (λ c, is_set_total_slides c.2 = false) calls →
  Forall (λ e, 0 ≤ te_slide_index e < T) (transcript (run calls s)).
Proof.
  induction calls as [|[now o] rest IH]; intros s Hpos HT Hb Hin Hc;
    [exact Hin|].
  apply Forall_cons in Hc as [Ho Hrest]. simpl in Ho. simpl run.
  apply IH; [exact Hpos| | | |exact Hrest].
  - rewrite call_total_slides. by destruct o.
  - apply call_slide_bound; [exact Hb|]. by destruct o.
  - rewrite call_transcript.
    destruct o; try exact Hin; try constructor.
    apply Forall_app. split; [exact Hin|].
    constructor; [|constructor]. simpl.
    rewrite <- HT in *. by apply Hb.
Qed.

(** X4.  On a manager created with [total_slides = T > 0] and never given
    another total, every transcript entry carries a slide index inside
    [[0,T)], whatever calls were made. *)
Theorem transcript_slide_indices_in_range now T calls :
  0 < T →
  Forall (λ c, is_set_total_slides c.2 = false) calls →
  Forall (λ e, 0 ≤ te_slide_index e < T)
         (transcript (run calls (init now T))).
Proof.
  intros Hpos Hc.
  apply run_transcript_in_range;
    [exact Hpos | reflexivity | apply init_slide_bound | constructor
     | exact Hc].
Qed.

Lemma transcript_slide_indices_in_range_witness :
  Forall (λ e, 0 ≤ te_slide_index e < 10)
         (transcript
            (run [(1, SetCurrentSlide 9);
                  (2, AddTranscriptEntry "closing remarks" "user" None);
                  (3, Navigate "next" None);
                  (4, Navigate "jump" (Some 30));
                  (5, AddTranscriptEntry "thank you" "assistant" None)]
                 (init 0 10))).
Proof.
  apply (transcript_slide_indices_in_range 0 10); [lia|].
  repeat constructor.
Defined.

(** X5.  [add_transcript_entry] adds the new entry, stamped with the
    current slide, to the view [get_transcript_for_slide] gives of the
    current slide, at its end, and changes the view of no other slide. *)
Theorem add_transcript_entry_slide_view now text speaker md s :
  (get_transcript_for_slide (current_slide s)
     (add_transcript_entry now text speaker md s).2).1
  = inr (filter (λ e, te_slide_index e = current_slide s) (transcript s)
         ++ [mkEntry now text speaker (current_slide s) (default ∅ md)])
  ∧ (∀ j, j ≠ current_slide s →
       (get_transcript_for_slide j
          (add_transcript_entry now text speaker md s).2).1
       = (get_transcript_for_slide j s).1).
Proof.
  unfold get_transcript_for_slide, add_transcript_entry. simpl. split.
  - rewrite filter_app, filter_cons, filter_nil. simpl.
    by rewrite decide_True by reflexivity.
  - intros j Hj. rewrite filter_app, filter_cons, filter_nil. simpl.
    rewrite decide_False by congruence. by rewrite app_nil_r.
Qed.

Lemma add_transcript_entry_slide_view_witness :
  (get_transcript_for_slide 3
     (add_transcript_entry 5 "On slide 0" "user" None (init 0 10)).2).1
  = (get_transcript_for_slide 3 (init 0 10)).1.
Proof.
  apply (add_transcript_entry_slide_view 5 "On slide 0" "user" None
           (init 0 10)).
  simpl. lia.
Defined.

(** X6.  [track_injection] adds the record to the view
    [get_injections_for_slide] gives of its target slide (the given
    [slide_index], or the current slide when none is given), at its end,
    and changes the view of no other slide.  The target is not
    range-checked. *)
Theorem track_injection_slide_view now p ct c idx s :
  (get_injections_for_slide (default (current_slide s) idx)
     (track_injection now p ct c idx s).2).1
  = inr (filter (λ r, inj_slide_index r = default (current_slide s) idx)
                (injections s)
         ++ [mkInjection now (default (current_slide s) idx) p ct c])
  ∧ (∀ j, j ≠ default (current_slide s) idx →
       (get_injections_for_slide j (track_injection now p ct c idx s).2).1
       = (get_injections_for_slide j s).1).
Proof.
  unfold get_injections_for_slide, track_injection. simpl. split.
  - rewrite filter_app, filter_cons, filter_nil. simpl.
    by rewrite decide_True by reflexivity.
  - intros j Hj. rewrite filter_app, filter_cons, filter_nil. simpl.
    rewrite decide_False by congruence. by rewrite app_nil_r.
Qed.

Lemma track_injection_slide_view_witness :
  (get_injections_for_slide 0
     (track_injection 5 "AI:TEXT" "text" (VStr "data2") (Some 40)
        (init 0 10)).2).1
  = (get_injections_for_slide 0 (init 0 10)).1.
Proof.
  apply (track_injection_slide_view 5 "AI:TEXT" "text" (VStr "data2")
           (Some 40) (init 0 10)).
  simpl. lia.
Defined.

(** X7.  Session metadata is a last-write-wins mapping:
    [get_metadata(k)] after [set_metadata(k, v)] returns [v]; a write to
    [k] leaves the reading of every other key as it was; a second write to
    [k] makes the first unobservable; a key that was never written reads as
    the caller's default; and the key "session_id" of a new manager is
    present with value [None], so reading it returns [None] and not the
    default. *)
Theorem metadata_last_write_wins s k v :
  (∀ d, (get_metadata k d (set_metadata k v s).2).1 = inr v)
  ∧ (∀ k' d, k' ≠ k →
       (get_metadata k' d (set_metadata k v s).2).1 = (get_metadata k' d s).1)
  ∧ (∀ v', (set_metadata k v' (set_metadata k v s).2).2
           = (set_metadata k v' s).2)
  ∧ (∀ d, session_metadata s !! k = None → get_metadata k d s = (inr d, s))
  ∧ (∀ now T d, get_metadata "session_id" d (init now T)
                = (inr VNone, init now T)).
Proof.
  unfold get_metadata, set_metadata. simpl. repeat split.
  - intros d. by rewrite lookup_insert_eq.
  - intros k' d Hk. by rewrite lookup_insert_ne.
  - intros v'. unfold with_session_metadata. simpl.
    by rewrite insert_insert_eq.
  - intros d ->. reflexivity.
Qed.

Lemma metadata_last_write_wins_witness :
  (get_metadata "presenter" (VStr "nobody")
     (set_metadata "session_id" (VStr "abc123") (init 0 10)).2).1
  = (get_metadata "presenter" (VStr "nobody") (init 0 10)).1.
Proof.
  apply (metadata_last_write_wins (init 0 10) "session_id" (VStr "abc123")).
  discriminate.
Defined.

(** X8.  [reset] re-initializes the manager with the total it has: the
    state after it is the state of a new [StateManager(total_slides)]
    started at that time.  So a reset restores the slide bound even when it
    was broken before, and the bound then holds along every sequence of
    calls in which every [set_total_slides(n)] with [n > 0] is issued while
    [0 <= current_slide < n]. *)
Theorem reset_restores_slide_bound now s calls :
  totals_cover_current calls (reset now s).2 →
  (reset now s).2 = init now (total_slides s)
  ∧ slide_bound (run calls (reset now s).2).
Proof.
  intros Hc. split; [reflexivity|].
  apply run_slide_bound; [|exact Hc]. apply init_slide_bound.
Qed.

Lemma reset_restores_slide_bound_witness :
  (reset 9 (run Traces.shrink_below_current (init 0 10))).2
  = init 9 (total_slides (run Traces.shrink_below_current (init 0 10)))
  ∧ slide_bound
      (run [(10, Navigate "next" None); (11, Navigate "next" None);
            (12, Navigate "next" None)]
           (reset 9 (run Traces.shrink_below_current (init 0 10))).2).
Proof.
  apply (reset_restores_slide_bound 9
           (run Traces.shrink_below_current (init 0 10))).
  cbv -[Z.lt Z.le]. tauto.
Defined.

(** X9.  [get_context] changes nothing and reports counts that agree with
    the logs it samples: [transcript_entries] and [injections_count] are
    the lengths of the two logs, and [recent_transcript] is the last
    [min(5, k)] entries of the transcript, the same entries
    [get_recent_transcript(5)] returns. *)
Theorem get_context_consistent s :
  ∃ c,
    get_context s = (inr c, s)
    ∧ ctx_current_slide c = current_slide s
    ∧ ctx_total_slides c = total_slides s
    ∧ ctx_transcript_entries c = length (transcript s)
    ∧ ctx_injections_count c = length (injections s)
    ∧ get_recent_transcript 5 s = (inr (ctx_recent_transcript c), s)
    ∧ ctx_recent_transcript c
      = drop (length (transcript s) - 5) (transcript s)
    ∧ length (ctx_recent_transcript c) = Nat.min 5 (length (transcript s)).
Proof.
  eexists. split; [reflexivity|]. cbn -[Nat.min py_slice_from drop].
  assert (match transcript s with
          | [] => []
          | _ :: _ => py_slice_from (-5) (transcript s)
          end = drop (length (transcript s) - 5) (transcript s)) as H.
  { destruct (transcript s) as [|e l] eqn:E; [reflexivity|].
    apply (RecentTranscript.py_slice_from_neg 5). lia. }
  repeat split; try reflexivity.
  - exact H.
  - rewrite H, length_drop. lia.
Qed.

End StateManagerViews.

(** * Further properties of navigation *)

Module Navigation.

Import StateManager Guards StateManagerFacts.

Lemma with_current_slide_twice s a b :
  with_current_slide (with_current_slide s a) b = with_current_slide s b.
Proof. reflexivity. Qed.

(** X10.  A direction other than "next", "prev" and "jump" (the comparison
    is case-sensitive) makes [navigate] fail with "Invalid direction: "
    followed by the direction, whatever the index, and leaves the state as
    it was. *)
Theorem navigate_invalid_direction d idx s :
  d ≠ "next" → d ≠ "prev" → d ≠ "jump" →
  navigate d idx s
  = (inl (PyExc ValueError ("Invalid direction: " +:+ d)), s).
Proof.
  intros Hn Hp Hj. unfold navigate.
  rewrite (proj2 (String.eqb_neq d "next")) by exact Hn.
  rewrite (proj2 (String.eqb_neq d "prev")) by exact Hp.
  rewrite (proj2 (String.eqb_neq d "jump")) by exact Hj.
  reflexivity.
Qed.

Lemma navigate_invalid_direction_witness :
  navigate "Next" (Some 3) (init 0 10)
  = (inl (PyExc ValueError "Invalid direction: Next"), init 0 10).
Proof.
  apply (navigate_invalid_direction "Next" (Some 3) (init 0 10));
    discriminate.
Defined.

Lemma run_next_step now s :
  slide_bound s →
  (call now (Navigate "next" None) s).2 = with_current_slide s (next_index s)
  ∧ succeeds now (Navigate "next" None) s = true.
Proof.
  intros Hb. unfold succeeds, call, ignore.
  by rewrite navigate_next_ok.
Qed.

Lemma run_prev_step now s :
  slide_bound s →
  (call now (Navigate "prev" None) s).2 = with_current_slide s (prev_index s)
  ∧ succeeds now (Navigate "prev" None) s = true.
Proof.
  intros Hb. unfold succeeds, call, ignore.
  by rewrite navigate_prev_ok.
Qed.

Lemma with_current_slide_bound s i :
  (0 < total_slides s → 0 ≤ i < total_slides s) →
  slide_bound (with_current_slide s i).
Proof. intros H. exact H. Qed.

(** X11.  From a state that satisfies the slide bound with
    [total_slides > 0], [n] successive [navigate("next")] calls all succeed
    and end on slide [min(current_slide + n, total_slides - 1)]: the
    pointer advances one slide per call and then stays on the last
    slide. *)
Theorem navigate_next_n_times now n : ∀ s,
  slide_bound s → 0 < total_slides s →
  all_succeed (replicate n (now, Navigate "next" None)) s = true
  ∧ run (replicate n (now, Navigate "next" None)) s
    = with_current_slide s
        (Z.min (current_slide s + Z.of_nat n) (total_slides s - 1)).
Proof.
  induction n as [|n IH]; intros s Hb HT.
  - simpl. split; [reflexivity|].
    pose proof (Hb HT).
    replace (Z.min _ _) with (current_slide s) by lia.
    by rewrite with_current_slide_same.
  - destruct (run_next_step now s Hb) as [Hs Hok].
    assert (slide_bound (with_current_slide s (next_index s))) as Hb'.
    { apply with_current_slide_bound. intros _.
      pose proof (Hb HT). unfold next_index.
      destruct (Z.ltb_spec 0 (total_slides s)); lia. }
    destruct (IH _ Hb' HT) as [IHok IHrun].
    cbn [replicate all_succeed run]. rewrite Hok, Hs, IHok, IHrun.
    split; [reflexivity|].
    rewrite with_current_slide_twice. f_equal.
    pose proof (Hb HT). simpl. unfold next_index.
    destruct (Z.ltb_spec 0 (total_slides s)); lia.
Qed.

Lemma navigate_next_n_times_witness :
  all_succeed (replicate 15 (1, Navigate "next" None)) (init 0 10) = true
  ∧ run (replicate 15 (1, Navigate "next" None)) (init 0 10)
    = with_current_slide (init 0 10) 9.
Proof.
  apply (navigate_next_n_times 1 15 (init 0 10)).
  - unfold slide_bound. simpl. lia.
  - simpl. lia.
Defined.

(** X12.  From a state that satisfies the slide bound, [n] successive
    [navigate("prev")] calls all succeed and end on slide
    [max(current_slide - n, 0)]. *)
Theorem navigate_prev_n_times now n : ∀ s,
  slide_bound s → 0 ≤ current_slide s →
  all_succeed (replicate n (now, Navigate "prev" None)) s = true
  ∧ run (replicate n (now, Navigate "prev" None)) s
    = with_current_slide s (Z.max (current_slide s - Z.of_nat n) 0).
Proof.
  induction n as [|n IH]; intros s Hb Hc.
  - simpl. split; [reflexivity|].
    replace (Z.max _ _) with (current_slide s) by lia.
    by rewrite with_current_slide_same.
  - destruct (run_prev_step now s Hb) as [Hs Hok].
    assert (slide_bound (with_current_slide s (prev_index s))) as Hb'.
    { apply with_current_slide_bound. intros HT.
      pose proof (Hb HT). unfold prev_index. lia. }
    assert (0 ≤ current_slide (with_current_slide s (prev_index s))) as Hc'.
    { simpl. unfold prev_index. lia. }
    destruct (IH _ Hb' Hc') as [IHok IHrun].
    cbn [replicate all_succeed run]. rewrite Hok, Hs, IHok, IHrun.
    split; [reflexivity|].
    rewrite with_current_slide_twice. f_equal.
    simpl. unfold prev_index. lia.
Qed.

Lemma navigate_prev_n_times_witness :
  all_succeed (replicate 3 (1, Navigate "prev" None))
              (run [(0, SetCurrentSlide 2)] (init 0 10)) = true
  ∧ run (replicate 3 (1, Navigate "prev" None))
        (run [(0, SetCurrentSlide 2)] (init 0 10))
    = with_current_slide (run [(0, SetCurrentSlide 2)] (init 0 10)) 0.
Proof.
  apply (navigate_prev_n_times 1 3 (run [(0, SetCurrentSlide 2)] (init 0 10))).
  - unfold slide_bound. cbn. lia.
  - cbn. lia.
Defined.

(** X13.  Away from the ends, "next" and "prev" undo each other: in a
    state that satisfies the slide bound with [total_slides > 0],
    [navigate("prev")] after [navigate("next")] returns to the starting
    slide unless it was the last one, and [navigate("next")] after
    [navigate("prev")] returns to it unless it was slide 0. *)
Theorem next_and_prev_undo_each_other s :
  slide_bound s → 0 < total_slides s →
  (current_slide s < total_slides s - 1 →
     navigate "prev" None (navigate "next" None s).2
     = (inr (current_slide s), s))
  ∧ (0 < current_slide s →
       navigate "next" None (navigate "prev" None s).2
       = (inr (current_slide s), s)).
Proof.
  intros Hb HT. pose proof (Hb HT) as Hc. split; intros Hedge.
  - rewrite navigate_next_ok by exact Hb. cbn [snd].
    assert (next_index s = current_slide s + 1) as ->.
    { unfold next_index. destruct (Z.ltb_spec 0 (total_slides s)); lia. }
    rewrite navigate_prev_ok
      by (apply with_current_slide_bound; intros _; lia).
    unfold prev_index. simpl current_slide.
    rewrite with_current_slide_twice.
    replace (Z.max (current_slide s + 1 - 1) 0) with (current_slide s) by lia.
    by rewrite with_current_slide_same.
  - rewrite navigate_prev_ok by exact Hb. cbn [snd].
    assert (prev_index s = current_slide s - 1) as ->.
    { unfold prev_index. lia. }
    rewrite navigate_next_ok
      by (apply with_current_slide_bound; intros _; lia).
    unfold next_index. simpl current_slide. simpl total_slides.
    rewrite with_current_slide_twice.
    destruct (Z.ltb_spec 0 (total_slides s)); [|lia].
    replace (Z.min (current_slide s - 1 + 1) (total_slides s - 1))
      with (current_slide s) by lia.
    by rewrite with_current_slide_same.
Qed.

Lemma next_and_prev_undo_each_other_witness :
  navigate "prev" None
    (navigate "next" None (run [(0, SetCurrentSlide 5)] (init 0 10))).2
  = (inr (current_slide (run [(0, SetCurrentSlide 5)] (init 0 10))),
     run [(0, SetCurrentSlide 5)] (init 0 10)).
Proof.
  apply (next_and_prev_undo_each_other (run [(0, SetCurrentSlide 5)] (init 0 10))).
  - unfold slide_bound. cbn. lia.
  - cbn. lia.
  - cbn. lia.
Defined.

(** X14.  [navigate("jump", index=i)] and [set_current_slide(i)] accept
    exactly the same indices and leave the same state; when they succeed
    the jump returns [i] and [get_current_slide] then reads [i]. *)
Theorem jump_is_set_current_slide now s i :
  (navigate "jump" (Some i) s).2 = (set_current_slide i s).2
  ∧ succeeds now (Navigate "jump" (Some i)) s
    = succeeds now (SetCurrentSlide i) s
  ∧ (succeeds now (SetCurrentSlide i) s = true →
       (navigate "jump" (Some i) s).1 = inr i
       ∧ (get_current_slide (set_current_slide i s).2).1 = inr i).
Proof.
  unfold succeeds, call, ignore. rewrite navigate_jump_some.
  unfold set_current_slide. destruct (out_of_range s i); simpl;
    repeat split; discriminate.
Qed.

Lemma jump_is_set_current_slide_witness :
  (navigate "jump" (Some 7) (init 0 10)).1 = inr 7
  ∧ (get_current_slide (set_current_slide 7 (init 0 10)).2).1 = inr 7.
Proof.
  apply (jump_is_set_current_slide 0 (init 0 10) 7). reflexivity.
Defined.

End Navigation.

(** * Further properties of SlideTools *)

Module SlideToolsFacts.

Import StateManager SlideTools ContentCommands StateManagerFacts Summary.

(** Every exception [navigate] raises is a [ValueError]. *)
Lemma navigate_raises_ValueError d idx s e s' :
  navigate d idx s = (inl e, s') → exc_cls e = ValueError ∧ s' = s.
Proof.
  unfold navigate.
  destruct (String.eqb d "next"); [|destruct (String.eqb d "prev");
    [|destruct (String.eqb d "jump"); [destruct idx|]]];
  try (intros H; inversion H; by subst);
  match goal with
  | |- context [out_of_range s ?x] => destruct (out_of_range s x)
  end;
  intros H; inversion H; by subst.
Qed.

(** X15.  [navigate_slide] never raises: it returns an envelope with
    action "navigate".  When [StateManager.navigate] succeeds with [n], the
    envelope has [success = True], the direction, [current_slide = n] and
    the total slide count, and the state is the one [navigate] left; when
    it raises [e], the envelope has [success = False] with [str(e)] as
    error, and the state is as it was. *)
Theorem navigate_slide_envelope d idx s :
  ∃ dct,
    navigate_slide d idx s = (inr dct, (navigate d idx s).2)
    ∧ dict_get dct "action" = Some (VStr "navigate")
    ∧ match (navigate d idx s).1 with
      | inr n =>
          dict_get dct "success" = Some (VBool true)
          ∧ dict_get dct "direction" = Some (VStr d)
          ∧ dict_get dct "current_slide" = Some (VInt n)
          ∧ dict_get dct "total_slides" = Some (VInt (total_slides s))
      | inl e =>
          dict_get dct "success" = Some (VBool false)
          ∧ dict_get dct "error" = Some (VStr (str_exc e))
          ∧ (navigate d idx s).2 = s
      end.
Proof.
  unfold navigate_slide, try_except_Exception, mbind, M_bind.
  destruct (navigate d idx s) as [[e|n] s'] eqn:E.
  - apply navigate_raises_ValueError in E as [Hc ->]. rewrite Hc.
    eexists. split; [reflexivity|]. by repeat split.
  - apply navigate_inv in E as (-> & _ & _).
    eexists. split; [reflexivity|]. by repeat split.
Qed.

(** X16.  A sequence of [inject_image] and [add_content] commands never
    raises, returns one envelope with [success = True] per command, and
    appends to the injection log exactly one record per command, in call
    order, each targeted at the current slide with content-type "image" or
    "text" and its payload; the current slide, the total, the transcript
    and the metadata stay as they were. *)
Theorem content_commands_append_records cmds : ∀ s,
  ∃ rs,
    run_commands cmds s
    = (inr rs,
       with_injections s
         (injections s ++ (record_of (current_slide s) <$> cmds)))
    ∧ length rs = length cmds
    ∧ Forall (λ r, dict_get r "success" = Some (VBool true)) rs.
Proof.
  induction cmds as [|[now c] rest IH]; intros s.
  - exists []. simpl. rewrite app_nil_r. by destruct s.
  - set (s1 := with_injections s
                 (injections s ++ [record_of (current_slide s) (now, c)])).
    destruct (IH s1) as (rs & Hrun & Hlen & Hok).
    assert (∃ r, run_command now c s = (inr r, s1)
                 ∧ dict_get r "success" = Some (VBool true))
      as (r & Hr & Hsucc).
    { destruct c; eexists; split; reflexivity. }
    exists (r :: rs).
    cbn [run_commands]. unfold mbind, M_bind at 1. rewrite Hr.
    unfold mbind, M_bind at 1. rewrite Hrun.
    split; [|split; [simpl; by rewrite Hlen | by constructor]].
    unfold mret, M_ret. f_equal.
    unfold s1, with_injections. simpl.
    by rewrite <- app_assoc.
Qed.

(** X17.  [generate_summary] never raises and reports [success = True]
    exactly when the transcript is not empty; either way it leaves the
    current slide, the total, the transcript and the metadata as they
    were, and the injection log is either as it was or extended by exactly
    one record, of content-type "summary", on the current slide. *)
Theorem generate_summary_success_iff_transcript now s :
  ∃ dct s',
    generate_summary now s = (inr dct, s')
    ∧ dict_get dct "success"
      = Some (VBool (bool_decide (transcript s ≠ [])))
    ∧ current_slide s' = current_slide s
    ∧ total_slides s' = total_slides s
    ∧ transcript s' = transcript s
    ∧ session_metadata s' = session_metadata s
    ∧ (injections s' = injections s
       ∨ ∃ r, injections s' = injections s ++ [r]
              ∧ inj_content_type r = "summary"
              ∧ inj_slide_index r = current_slide s).
Proof.
  destruct (decide (transcript s = [])) as [He|Hne].
  - unfold generate_summary, try_except_Exception, mbind, M_bind,
      get_recent_transcript. rewrite He.
    do 2 eexists. split; [reflexivity|].
    rewrite bool_decide_false by (intros H; by apply H).
    repeat split; try reflexivity; try exact He. by left.
  - rewrite summary_success_path by exact Hne.
    do 2 eexists. split; [reflexivity|].
    rewrite bool_decide_true by exact Hne.
    repeat split; try reflexivity. right. by eexists.
Qed.

Lemma string_length_app (a b : string) :
  String.length (a +:+ b) = (String.length a + String.length b)%nat.
Proof. induction a as [|c a IH]; simpl; [reflexivity | by rewrite IH]. Qed.

Lemma substring_0_length n : ∀ s,
  String.length (String.substring 0 n s) = Nat.min n (String.length s).
Proof.
  induction n as [|n IH]; intros [|c s]; simpl; try reflexivity.
  by rewrite IH.
Qed.

(** X18.  The summary is bounded whatever the transcript holds: it has at
    most 5 bullets, and each bullet is "- ", at most 100 characters of
    text, and "...", so at most 105 characters long. *)
Theorem summary_bullets_bounded texts :
  (length (summary_bullets texts) ≤ 5)%nat
  ∧ Forall (λ b, (String.length b ≤ 105)%nat) (summary_bullets texts).
Proof.
  rewrite summary_bullets_filter. split.
  - rewrite length_fmap.
    etrans; [apply length_filter|]. rewrite length_take. lia.
  - apply Forall_fmap, Forall_forall. intros x _. simpl.
    unfold bullet. rewrite !string_length_app, substring_0_length.
    change (String.length "- ") with 2%nat.
    change (String.length "...") with 3%nat.
    change (String.length "") with 0%nat. lia.
Qed.

End SlideToolsFacts.

(** * Further properties of ToolExecutor *)

Module Registry.

Import ToolExecutor ToolCalls ExecuteTool.

Section WithState.

Context {S : Type}.

Implicit Types (self : ToolExecutor.t S) (func : tool S).

Lemma has_tool_true self name :
  has_tool self name = true ↔ is_Some (tools self !! name).
Proof. unfold has_tool. apply bool_decide_eq_true. Qed.

(** X19.  [register_tool] raises "Tool '<name>' is already registered" when
    the name is taken, whether or not the function is async; with a free
    name it raises "Tool '<name>' must be an async function" for a function
    that is not a coroutine function; otherwise it registers the tool and
    its declaration under the name and changes no other entry. *)
Theorem register_tool_outcome self name func decl :
  (is_Some (tools self !! name) →
     register_tool self name func decl
     = inl (PyExc ValueError
              ("Tool '" +:+ name +:+ "' is already registered")))
  ∧ (tools self !! name = None → is_coroutinefunction func = false →
       register_tool self name func decl
       = inl (PyExc ValueError
                ("Tool '" +:+ name +:+ "' must be an async function")))
  ∧ (tools self !! name = None → is_coroutinefunction func = true →
       ∃ self',
         register_tool self name func decl = inr self'
         ∧ tools self' !! name = Some func
         ∧ declarations self' !! name = Some decl
         ∧ verbose self' = verbose self
         ∧ ∀ other, other ≠ name →
             tools self' !! other = tools self !! other
             ∧ declarations self' !! other = declarations self !! other).
Proof.
  unfold register_tool. split; [|split].
  - by intros [f ->].
  - by intros -> ->.
  - intros -> ->. eexists. split; [reflexivity|]. simpl.
    rewrite !lookup_insert_eq. repeat split; try reflexivity.
    all: by rewrite lookup_insert_ne.
Qed.

(** X20.  A registered tool is the one dispatched: after
    [register_tool(name, func, declaration)] succeeds, [execute_tool] on
    [name] awaits [func] on the given arguments (an absent argument mapping
    counts as empty) and wraps what it returns or raises, and
    [execute_tool] on any other name behaves as before the registration. *)
Theorem register_then_execute self name func decl self' :
  register_tool self name func decl = inr self' →
  (∀ call_id args s,
     execute_tool self' name call_id args s
     = match invoke func (default [] args) s with
       | (inr v, s') =>
           (inr (mkResponse call_id name
                   [("result", VStr "success"); ("data", v)]), s')
       | (inl e, s') =>
           if is_Exception (exc_cls e)
           then (inr (mkResponse call_id name
                        [("result", VStr "error");
                         ("error", VStr (str_exc e))]), s')
           else (inl e, s')
       end)
  ∧ (∀ other call_id args s,
       other ≠ name →
       execute_tool self' other call_id args s
       = execute_tool self other call_id args s).
Proof.
  unfold register_tool.
  destruct (tools self !! name) eqn:Hl; [discriminate|].
  destruct (is_coroutinefunction func); [|discriminate].
  simpl. intros [= <-]. split.
  - intros call_id args s. rewrite execute_tool_unfold. simpl.
    by rewrite lookup_insert_eq.
  - intros other call_id args s Hne. rewrite !execute_tool_unfold. simpl.
    by rewrite lookup_insert_ne.
Qed.

Lemma register_all_succeeds regs : ∀ self,
  (∃ self', register_all self regs = inr self')
  ↔ NoDup (names regs)
    ∧ Forall (λ n, tools self !! n = None) (names regs)
    ∧ Forall (λ r, is_coroutinefunction r.1.2 = true) regs.
Proof.
  induction regs as [|[[name func] decl] rest IH]; intros self.
  - simpl. split; [intros _ | eauto]. repeat split; constructor.
  - cbn [register_all names fmap list_fmap]. fold (names rest).
    rewrite NoDup_cons, !Forall_cons. simpl.
    destruct (register_tool_outcome self name func decl)
      as (Hdup & Hsync & Hok).
    destruct (tools self !! name) as [f|] eqn:Hl.
    { rewrite Hdup by eauto.
      split; [intros [? [=]] | intros (_ & [[=] _] & _)]. }
    destruct (is_coroutinefunction func) eqn:Ha.
    2:{ rewrite Hsync by reflexivity.
        split; [intros [? [=]] | intros (_ & _ & [[=] _])]. }
    destruct (Hok eq_refl eq_refl) as (self1 & -> & Hn & _ & _ & Hother).
    rewrite IH.
    assert (Forall (λ n, tools self1 !! n = None) (names rest)
            ↔ (name ∉ names rest)
              ∧ Forall (λ n, tools self !! n = None) (names rest)) as ->.
    { rewrite !Forall_forall. split.
      - intros H. split.
        + intros Hin. specialize (H _ Hin). congruence.
        + intros n Hin. specialize (H _ Hin).
          destruct (decide (n = name)) as [->|Hne]; [congruence|].
          by rewrite <- (proj1 (Hother n Hne)).
      - intros [Hnot H] n Hin.
        assert (n ≠ name) as Hne by (intros ->; contradiction).
        rewrite (proj1 (Hother n Hne)). by apply H. }
    tauto.
Qed.

(** X21.  Registering a list of tools on a new executor succeeds exactly
    when the names are pairwise distinct and every function is async. *)
Theorem register_all_succeeds_iff verbose regs :
  (∃ self', register_all (new verbose) regs = inr self')
  ↔ NoDup (names regs)
    ∧ Forall (λ r, is_coroutinefunction r.1.2 = true) regs.
Proof.
  rewrite register_all_succeeds. split; [tauto|].
  intros [Hnd Ha]. repeat split; try assumption.
  apply Forall_forall. intros n _. apply lookup_empty.
Qed.

Lemma register_all_lookup regs : ∀ self self',
  register_all self regs = inr self' →
  ∀ n, (is_Some (tools self' !! n)
        ↔ is_Some (tools self !! n) ∨ n ∈ names regs)
       ∧ (is_Some (declarations self' !! n)
          ↔ is_Some (declarations self !! n) ∨ n ∈ names regs).
Proof.
  induction regs as [|[[name func] decl] rest IH]; intros self self' Hr n.
  - injection Hr as <-. unfold names. simpl.
    rewrite elem_of_nil. tauto.
  - cbn [register_all] in Hr.
    destruct (register_tool_outcome self name func decl)
      as (Hdup & Hsync & Hok).
    destruct (tools self !! name) as [f|] eqn:Hl.
    { rewrite Hdup in Hr by eauto. discriminate. }
    destruct (is_coroutinefunction func) eqn:Ha.
    2:{ rewrite Hsync in Hr by reflexivity. discriminate. }
    destruct (Hok eq_refl eq_refl) as (self1 & He & Ht & Hd & _ & Hother).
    rewrite He in Hr. destruct (IH _ _ Hr n) as [IHt IHd].
    rewrite IHt, IHd. cbn [names fmap list_fmap]. fold (names rest).
    rewrite elem_of_cons. simpl.
    destruct (decide (n = name)) as [->|Hne].
    + rewrite Ht, Hd. split; split; eauto.
    + destruct (Hother n Hne) as [-> ->]. split; split; tauto.
Qed.

(** X22.  In an executor built from a new one by registrations, the
    registered tool names and the names that have a declaration are the
    same set, namely the names registered: [has_tool] holds of a name
    exactly when it was registered, and exactly then a declaration is
    stored for it. *)
Theorem registered_names verbose regs self' :
  register_all (new verbose) regs = inr self' →
  ∀ n, (has_tool self' n = true ↔ n ∈ names regs)
       ∧ (is_Some (declarations self' !! n) ↔ n ∈ names regs).
Proof.
  intros Hr n. destruct (register_all_lookup _ _ _ Hr n) as [Ht Hd].
  rewrite has_tool_true, Ht, Hd. simpl. rewrite !lookup_empty.
  split; split; try tauto; intros [[? [=]] | ?]; assumption.
Qed.

Lemma execute_tool_returns self name call_id args s :
  raises_Exception_only self →
  ∃ r s',
    execute_tool self name call_id args s = (inr r, s')
    ∧ resp_id r = call_id ∧ resp_name r = name.
Proof.
  intros Hsafe. rewrite execute_tool_unfold.
  destruct (tools self !! name) as [func|] eqn:Hl; [|by eauto].
  destruct (invoke func (default [] args) s) as [[e|v] s'] eqn:Hi;
    [|by eauto].
  rewrite (Hsafe _ _ _ _ _ _ Hl Hi). by eauto.
Qed.

(** X23.  When no registered handler raises outside the [Exception]
    hierarchy, the loop of [handle_tool_calls] over a batch of function
    calls never raises and collects exactly one response per call, in call
    order, each carrying the id and the name of its call; unknown names
    and failing handlers do not stop the batch. *)
Theorem execute_calls_one_response_each self calls :
  raises_Exception_only self →
  ∀ acc s,
    ∃ rs s',
      execute_calls self calls acc s = (inr (acc ++ rs), s')
      ∧ resp_id <$> rs = fc_id <$> calls
      ∧ resp_name <$> rs = fc_name <$> calls.
Proof.
  intros Hsafe. induction calls as [|fc rest IH]; intros acc s.
  - exists [], s. simpl. by rewrite app_nil_r.
  - destruct (execute_tool_returns self (fc_name fc) (fc_id fc)
                (Some (call_args fc)) s Hsafe) as (r & s1 & He & Hid & Hn).
    destruct (IH (acc ++ [r]) s1) as (rs & s' & Hrun & Hids & Hns).
    exists (r :: rs), s'.
    cbn [execute_calls]. unfold mbind, M_bind at 1. rewrite He, Hrun.
    rewrite <- app_assoc. split; [reflexivity|].
    rewrite !fmap_cons. by rewrite Hid, Hn, Hids, Hns.
Qed.

End WithState.

Lemma two_tool_registry_safe :
  raises_Exception_only Fixtures.two_tool_registry.
Proof.
  intros name func args s e s' Hl Hi. simpl in Hl.
  apply lookup_insert_Some in Hl as [[_ <-] | [_ Hl]].
  - by inversion Hi.
  - apply lookup_insert_Some in Hl as [[_ <-] | [_ Hl]].
    + discriminate.
    + by rewrite lookup_empty in Hl.
Qed.

Lemma register_tool_outcome_witness :
  register_tool Fixtures.two_tool_registry "echo" Handlers.cancelled_tool VNone
  = inl (PyExc ValueError "Tool 'echo' is already registered").
Proof.
  apply (register_tool_outcome Fixtures.two_tool_registry "echo"
           Handlers.cancelled_tool VNone).
  vm_compute. eauto.
Defined.

Lemma register_then_execute_witness :
  execute_tool
    (mk (<["echo" := Handlers.echo]> ∅) (<["echo" := VNone]> ∅) true)
    "echo" "id2" (Some [("x", VInt 4)]) ()
  = (inr (mkResponse "id2" "echo"
            [("result", VStr "success"); ("data", VInt 4)]), ())
  ∧ execute_tool
      (mk (<["echo" := Handlers.echo]> ∅) (<["echo" := VNone]> ∅) true)
      "error_tool" "id3" None ()
    = execute_tool (new true) "error_tool" "id3" None ().
Proof.
  split.
  - apply (proj1 (register_then_execute (new true) "echo" Handlers.echo VNone
                    (mk (<["echo" := Handlers.echo]> ∅)
                        (<["echo" := VNone]> ∅) true)
                    eq_refl)
             "id2" (Some [("x", VInt 4)]) ()).
  - apply (proj2 (register_then_execute (new true) "echo" Handlers.echo VNone
                    (mk (<["echo" := Handlers.echo]> ∅)
                        (<["echo" := VNone]> ∅) true)
                    eq_refl)
             "error_tool" "id3" None ()).
    discriminate.
Defined.

Lemma register_all_succeeds_iff_witness :
  ∃ self', register_all (new false) Fixtures.two_tools = inr self'.
Proof.
  apply (register_all_succeeds_iff false Fixtures.two_tools). split.
  - apply (bool_decide_unpack _). reflexivity.
  - repeat constructor.
Defined.

Lemma registered_names_witness :
  has_tool Fixtures.two_tool_registry "echo" = true
  ↔ "echo" ∈ names Fixtures.two_tools.
Proof.
  apply (registered_names false Fixtures.two_tools Fixtures.two_tool_registry).
  reflexivity.
Defined.

Lemma execute_calls_one_response_each_witness :
  ∃ rs s',
    execute_calls Fixtures.two_tool_registry Fixtures.three_calls [] ()
    = (inr ([] ++ rs), s')
    ∧ resp_id <$> rs = fc_id <$> Fixtures.three_calls
    ∧ resp_name <$> rs = fc_name <$> Fixtures.three_calls.
Proof.
  apply (execute_calls_one_response_each Fixtures.two_tool_registry
           Fixtures.three_calls two_tool_registry_safe [] ()).
Defined.

End Registry.

(** * Further properties of AudioProcessor *)

Module AudioLifecycle.

Import AudioProcessor AudioRelease.

(** X24.  When an idle processor cannot set up its input (no default
    device, or opening the stream fails), [start_capture] raises that very
    exception to its caller and the processor stays idle and unchanged: no
    stream is kept, no capture task is created.  An [Exception] is
    reported on standard error first as "Error setting up audio input:
    ...". *)
Theorem start_capture_setup_failure self h e :
  is_running self = false →
  (default_input_device h = inl e
   ∨ ∃ index, default_input_device h = inr index
              ∧ open_result h index = inl e) →
  start_capture (self, h)
  = (inl e,
     (self,
      if is_Exception (exc_cls e)
      then print_stderr h ("Error setting up audio input: " +:+ str_exc e)
      else h))
  ∧ streams_opened (start_capture (self, h)).2.2 = streams_opened h
  ∧ tasks_created (start_capture (self, h)).2.2 = tasks_created h.
Proof.
  intros Hr Hfail.
  assert (open_and_start (self, h) = (inl e, (self, h))) as Ho.
  { unfold open_and_start.
    destruct Hfail as [-> | (index & -> & ->)]; reflexivity. }
  assert (start_capture (self, h)
          = (inl e,
             (self,
              if is_Exception (exc_cls e)
              then print_stderr h
                     ("Error setting up audio input: " +:+ str_exc e)
              else h))) as Hs.
  { unfold start_capture, try_except_Exception. rewrite Hr, Ho.
    by destruct (is_Exception (exc_cls e)). }
  rewrite Hs. split; [reflexivity|].
  by destruct (is_Exception (exc_cls e)).
Qed.

Lemma start_capture_setup_failure_witness :
  start_capture (new 5, Fixtures.no_device)
  = (inl (PyExc OSError "No Default Input Device Available"),
     (new 5,
      print_stderr Fixtures.no_device
        "Error setting up audio input: No Default Input Device Available"))
  ∧ streams_opened (start_capture (new 5, Fixtures.no_device)).2.2
    = streams_opened Fixtures.no_device
  ∧ tasks_created (start_capture (new 5, Fixtures.no_device)).2.2
    = tasks_created Fixtures.no_device.
Proof.
  apply (start_capture_setup_failure (new 5) Fixtures.no_device
           (PyExc OSError "No Default Input Device Available")).
  - reflexivity.
  - left. reflexivity.
Defined.

(** X25.  When an idle processor finds its default device and the stream
    opens, [start_capture] returns normally with the processor running on
    that stream: exactly one stream is opened and one capture task
    created, nothing is printed, and the queue and its capacity are as
    they were. *)
Theorem start_capture_from_idle self h index stream :
  is_running self = false →
  default_input_device h = inr index →
  open_result h index = inr stream →
  ∃ self' h',
    start_capture (self, h) = (inr (), (self', h'))
    ∧ is_running self' = true
    ∧ audio_stream self' = Some stream
    ∧ capture_task self' = Some (tasks_created h)
    ∧ audio_queue self' = audio_queue self
    ∧ queue_maxsize self' = queue_maxsize self
    ∧ streams_opened h' = streams_opened h ++ [stream]
    ∧ tasks_created h' = Datatypes.S (tasks_created h)
    ∧ stderr h' = stderr h.
Proof.
  intros Hr Hd Ho.
  unfold start_capture, try_except_Exception, open_and_start.
  rewrite Hr, Hd, Ho. do 2 eexists. split; [reflexivity|].
  by repeat split.
Qed.

Lemma start_capture_from_idle_witness :
  ∃ self' h',
    start_capture (new 5, Hosts.working) = (inr (), (self', h'))
    ∧ is_running self' = true
    ∧ audio_stream self' = Some 1%nat
    ∧ capture_task self' = Some (tasks_created Hosts.working)
    ∧ audio_queue self' = audio_queue (new 5)
    ∧ queue_maxsize self' = queue_maxsize (new 5)
    ∧ streams_opened h' = streams_opened Hosts.working ++ [1%nat]
    ∧ tasks_created h' = Datatypes.S (tasks_created Hosts.working)
    ∧ stderr h' = stderr Hosts.working.
Proof.
  apply (start_capture_from_idle (new 5) Hosts.working 0 1%nat);
    reflexivity.
Defined.

Lemma try_close_returns stream self h r :
  (∀ e, close_result r stream = Some e → is_Exception (exc_cls e) = true) →
  ∃ h',
    try_except_Exception (close_stream stream)
      (λ e, log ("Error closing audio stream: " +:+ str_exc e)) (self, h, r)
    = (inr (),
       (self, h',
        mkRelease (close_result r) (terminate_result r) (cancelled r)
                  (closed r ++ [stream]) (terminated r)))
    ∧ stderr h `prefix_of` stderr h'
    ∧ streams_opened h' = streams_opened h
    ∧ tasks_created h' = tasks_created h.
Proof.
  intros Hsafe. unfold try_except_Exception, close_stream.
  destruct (close_result r stream) as [e|] eqn:Hc.
  - rewrite (Hsafe e eq_refl). eexists. split; [reflexivity|].
    simpl. split; [by apply prefix_app_r | by split].
  - eexists. split; [reflexivity|]. by repeat split.
Qed.

Lemma try_terminate_returns self h r :
  (∀ e, terminate_result r = Some e → is_Exception (exc_cls e) = true) →
  ∃ h',
    try_except_Exception terminate
      (λ e, log ("Error terminating pyaudio: " +:+ str_exc e)) (self, h, r)
    = (inr (),
       (self, h',
        mkRelease (close_result r) (terminate_result r) (cancelled r)
                  (closed r) (Datatypes.S (terminated r))))
    ∧ stderr h `prefix_of` stderr h'
    ∧ streams_opened h' = streams_opened h
    ∧ tasks_created h' = tasks_created h.
Proof.
  intros Hsafe. unfold try_except_Exception, terminate.
  destruct (terminate_result r) as [e|] eqn:Hc.
  - rewrite (Hsafe e eq_refl). eexists. split; [reflexivity|].
    simpl. split; [by apply prefix_app_r | by split].
  - eexists. split; [reflexivity|]. by repeat split.
Qed.

(** X26.  When closing the stream and terminating PyAudio raise nothing
    outside the [Exception] hierarchy, [stop_capture] never raises and
    leaves the processor not running with its queue untouched.  The three
    release steps are attempted independently: the capture task, if any,
    is cancelled; the stream, if any, is closed; and PyAudio is terminated
    exactly once, also when closing the stream failed.  Failures are
    printed to standard error, which only grows. *)
Theorem stop_capture_releases self h r :
  releases_raise_Exception_only r →
  ∃ h' r',
    stop_capture (self, h, r) = (inr (), (stopped self, h', r'))
    ∧ is_running (stopped self) = false
    ∧ audio_queue (stopped self) = audio_queue self
    ∧ cancelled r' = cancelled r ++ option_list (capture_task self)
    ∧ closed r' = closed r ++ option_list (audio_stream self)
    ∧ terminated r' = Datatypes.S (terminated r)
    ∧ close_result r' = close_result r
    ∧ terminate_result r' = terminate_result r
    ∧ stderr h `prefix_of` stderr h'.
Proof.
  intros [Hclose Hterm]. unfold stop_capture, mbind, M_bind.
  set (r1 := mkRelease (close_result r) (terminate_result r)
               (cancelled r ++ option_list (capture_task self)) (closed r)
               (terminated r)).
  assert (match capture_task self with
          | Some task => cancel_task task
          | None => mret ()
          end (stopped self, h, r) = (inr (), (stopped self, h, r1))) as ->.
  { unfold r1. destruct (capture_task self); simpl.
    - reflexivity.
    - rewrite app_nil_r. by destruct r. }
  destruct (audio_stream self) as [stream|] eqn:Hs.
  - destruct (try_close_returns stream (stopped self) h r1 (Hclose stream))
      as (h1 & -> & Hp1 & _).
    destruct (try_terminate_returns (stopped self) h1
                (mkRelease (close_result r1) (terminate_result r1)
                   (cancelled r1) (closed r1 ++ [stream]) (terminated r1))
                Hterm) as (h2 & -> & Hp2 & _).
    do 2 eexists. split; [reflexivity|]. simpl.
    repeat split; try reflexivity. by etrans.
  - unfold mret, M_ret.
    destruct (try_terminate_returns (stopped self) h r1 Hterm)
      as (h2 & -> & Hp2 & _).
    do 2 eexists. split; [reflexivity|]. simpl.
    rewrite app_nil_r. by repeat split.
Qed.

Lemma stop_capture_releases_witness :
  ∃ h' r',
    stop_capture (Hosts.started.1, Hosts.started.2, Fixtures.close_fails)
    = (inr (), (stopped Hosts.started.1, h', r'))
    ∧ is_running (stopped Hosts.started.1) = false
    ∧ audio_queue (stopped Hosts.started.1) = audio_queue Hosts.started.1
    ∧ cancelled r'
      = cancelled Fixtures.close_fails
        ++ option_list (capture_task Hosts.started.1)
    ∧ closed r'
      = closed Fixtures.close_fails
        ++ option_list (audio_stream Hosts.started.1)
    ∧ terminated r' = Datatypes.S (terminated Fixtures.close_fails)
    ∧ close_result r' = close_result Fixtures.close_fails
    ∧ terminate_result r' = terminate_result Fixtures.close_fails
    ∧ stderr Hosts.started.2 `prefix_of` stderr h'.
Proof.
  apply (stop_capture_releases Hosts.started.1 Hosts.started.2
           Fixtures.close_fails).
  split; simpl.
  - intros stream e [= <-]. reflexivity.
  - intros e [=].
Defined.

(** X27.  Repeated [stop_capture] is safe but not idle: a second call,
    under the same assumption, again returns normally with the processor
    not running, and, since the first call clears neither the stream nor
    the task, it cancels the same task, closes the same stream and
    terminates PyAudio a second time. *)
Theorem stop_capture_twice self h r :
  releases_raise_Exception_only r →
  ∃ h' r',
    stop_capture (stop_capture (self, h, r)).2
    = (inr (), (stopped self, h', r'))
    ∧ cancelled r'
      = cancelled r ++ option_list (capture_task self)
        ++ option_list (capture_task self)
    ∧ closed r'
      = closed r ++ option_list (audio_stream self)
        ++ option_list (audio_stream self)
    ∧ terminated r' = Datatypes.S (Datatypes.S (terminated r)).
Proof.
  intros Hsafe.
  destruct (stop_capture_releases self h r Hsafe)
    as (h1 & r1 & -> & _ & _ & Hc1 & Hd1 & Ht1 & Hcr & Htr & _).
  assert (releases_raise_Exception_only r1) as Hsafe1.
  { destruct Hsafe as [H1 H2]. split.
    - intros stream e. rewrite Hcr. apply H1.
    - intros e. rewrite Htr. apply H2. }
  destruct (stop_capture_releases (stopped self) h1 r1 Hsafe1)
    as (h2 & r2 & He & _ & _ & Hc2 & Hd2 & Ht2 & _).
  exists h2, r2. cbn [snd]. rewrite He.
  split; [reflexivity|].
  rewrite Hc2, Hd2, Ht2, Hc1, Hd1, Ht1. simpl.
  by rewrite <- !app_assoc.
Qed.

Lemma stop_capture_twice_witness :
  ∃ h' r',
    stop_capture
      (stop_capture
         (Hosts.started.1, Hosts.started.2, Fixtures.close_fails)).2
    = (inr (), (stopped Hosts.started.1, h', r'))
    ∧ cancelled r'
      = cancelled Fixtures.close_fails
        ++ option_list (capture_task Hosts.started.1)
        ++ option_list (capture_task Hosts.started.1)
    ∧ closed r'
      = closed Fixtures.close_fails
        ++ option_list (audio_stream Hosts.started.1)
        ++ option_list (audio_stream Hosts.started.1)
    ∧ terminated r'
      = Datatypes.S (Datatypes.S (terminated Fixtures.close_fails)).
Proof.
  apply (stop_capture_twice Hosts.started.1 Hosts.started.2
           Fixtures.close_fails).
  split; simpl.
  - intros stream e [= <-]. reflexivity.
  - intros e [=].
Defined.

End AudioLifecycle.
